(** * examples/plot_sampling_target_usage.py

    A shallow embedding of the example script that shows the usage of the
    [sampling_target] parameter, and the properties of the script that its
    description states.

    Layout:
    - [Py]: the Python values the script computes with (exceptions, binary64
      floats, insertion-ordered dictionaries, [collections.Counter], the
      numpy masking of lines 105-107);
    - [Script]: [plot_pie], the two [ratio_multiplier] definitions and the
      module body, run in a state-and-exception monad over an arbitrary
      resampling library;
    - [Demo]: the iris labels and a deterministic stand-in for the library,
      used to run the script on concrete data;
    - the theorems. *)

From Stdlib Require Import ZArith List Lia Bool.
From Stdlib Require Import Floats.SpecFloat.
From stdpp Require Import base gmap strings list.

(* ===================================================================== *)
(** * Python values *)
(* ===================================================================== *)

Module Py.

(** Exceptions the script can meet.  [LibraryError] stands for whatever the
    external resampling library raises; the script never looks inside. *)
Inductive exn :=
| KeyError (key : Z)
| IndexError
| ValueError
| OverflowError
| NameError (name : string)
| TypeError (name : string)
| RuntimeError
| LibraryError (what : string).

Inductive result (A : Type) :=
| Ok (a : A)
| Raise (e : exn).
Arguments Ok {A} a.
Arguments Raise {A} e.

Definition rbind {A B} (r : result A) (k : A -> result B) : result B :=
  match r with
  | Ok a => k a
  | Raise e => Raise e
  end.

(* --------------------------------------------------------------------- *)
(** ** binary64 floats

    A Python [float] is an IEEE 754 binary64 number.  A finite one is kept
    as the exact dyadic value [m * 2^e]; arithmetic rounds to nearest, ties
    to even, with 53 bits of precision, gradual underflow below [2^-1022]
    and overflow to infinity from [2^1024].  The sign of a zero is not
    kept: nothing in the script can observe it. *)
(* --------------------------------------------------------------------- *)

Section Floats.
Local Open Scope Z_scope.

Inductive float :=
| Finite (m e : Z)
| Inf (neg : bool)
| NaN.

Definition prec : Z := 53.
Definition emax : Z := 1024.
Definition emin : Z := 3 - emax - prec.

(** Number of binary digits of a natural number. *)
Definition digits (m : Z) : Z :=
  if m =? 0 then 0 else Z.log2 m + 1.

(** [m / 2^s] rounded to the nearest integer, ties to even, for [0 <= m]. *)
Definition round_shift (m s : Z) : Z :=
  let q := m / 2 ^ s in
  let r := m mod 2 ^ s in
  let half := 2 ^ (s - 1) in
  if (half <? r) || ((r =? half) && Z.odd q) then q + 1 else q.

(** The exponent shift that brings [m * 2^e] to at most 53 digits and to an
    exponent not below [emin]. *)
Definition excess (m e : Z) : Z :=
  Z.max 0 (Z.max (digits m - prec) (emin - e)).

(** The binary64 number nearest to [m * 2^e]. *)
Definition round (m e : Z) : float :=
  let a := Z.abs m in
  let s := excess a e in
  let q := if s =? 0 then a else round_shift a s in
  if emax <? digits q + (e + s)
  then Inf (m <? 0)
  else Finite (Z.sgn m * q) (e + s).

(** [x * y] on floats. *)
Definition fmul (x y : float) : float :=
  match x, y with
  | Finite mx ex, Finite my ey => round (mx * my) (ex + ey)
  | Finite m _, Inf s | Inf s, Finite m _ =>
      if m =? 0 then NaN else Inf (xorb (m <? 0) s)
  | Inf a, Inf b => Inf (xorb a b)
  | NaN, _ | _, NaN => NaN
  end.

(** [float(n)] for a Python int: correctly rounded, [OverflowError] when the
    int is too large for a float. *)
Definition float_of_int (n : Z) : result float :=
  match round n 0 with
  | Finite m e => Ok (Finite m e)
  | _ => Raise OverflowError
  end.

(** [n * x] with [n] an int and [x] a float: the int is converted first. *)
Definition int_mul_float (n : Z) (x : float) : result float :=
  rbind (float_of_int n) (fun fn => Ok (fmul fn x)).

(** [int(x)]: truncation towards zero. *)
Definition int_of_float (x : float) : result Z :=
  match x with
  | Finite m e => Ok (if 0 <=? e then m * 2 ^ e else Z.quot m (2 ^ (- e)))
  | Inf _ => Raise OverflowError
  | NaN => Raise ValueError
  end.

(** The mathematical floor of a finite float. *)
Definition floor (x : float) : option Z :=
  match x with
  | Finite m e => Some (if 0 <=? e then m * 2 ^ e else m / 2 ^ (- e))
  | _ => None
  end.

(** The float literals of the script. *)
Definition f0_1 : float := Finite 7205759403792794 (-56).
Definition f0_5 : float := Finite 4503599627370496 (-53).
Definition f0_7 : float := Finite 6305039478318694 (-53).
Definition f0_8 : float := Finite 7205759403792794 (-53).
Definition f0_95 : float := Finite 8556839292003942 (-53).

(** [sys.maxsize]: no Python sequence is longer (64-bit build). *)
Definition sys_maxsize : Z := 2 ^ 63 - 1.

(** *** Agreement with the reference specification of binary64

    The Standard Library specifies IEEE arithmetic in [SpecFloat]; the two
    are compared by value on the products the script can form. *)

Definition of_spec (x : spec_float) : float :=
  match x with
  | S754_zero _ => Finite 0 0
  | S754_infinity s => Inf s
  | S754_nan => NaN
  | S754_finite s m e => Finite (if s then Z.neg m else Z.pos m) e
  end.

Definition to_spec (x : float) : spec_float :=
  match x with
  | Finite m e => binary_normalize prec emax m e false
  | Inf s => S754_infinity s
  | NaN => S754_nan
  end.

Definition same_value (x y : float) : bool :=
  match x, y with
  | Finite m1 e1, Finite m2 e2 =>
      let e := Z.min e1 e2 in
      m1 * 2 ^ (e1 - e) =? m2 * 2 ^ (e2 - e)
  | Inf a, Inf b => Bool.eqb a b
  | NaN, NaN => true
  | _, _ => false
  end.

Definition agrees_with_spec (n : Z) (x : float) : bool :=
  match float_of_int n with
  | Ok fn =>
      same_value (fmul fn x)
        (of_spec (SFmul prec emax (binary_normalize prec emax n 0 false) (to_spec x)))
  | Raise _ =>
      match binary_normalize prec emax n 0 false with
      | S754_infinity _ => true
      | _ => false
      end
  end.

End Floats.

(* --------------------------------------------------------------------- *)
(** ** Dictionaries

    A Python [dict] keeps its keys in insertion order, and the script shows
    that order (the wedges of a pie follow it), so a dictionary is the list
    of its items, oldest key first. *)
(* --------------------------------------------------------------------- *)

Section Dict.
Context {V : Type}.

Definition dict := list (Z * V).

Fixpoint dict_get (d : dict) (k : Z) : option V :=
  match d with
  | [] => None
  | (k', v) :: d' => if Z.eqb k' k then Some v else dict_get d' k
  end.

(** [d[k] = v]: an existing key keeps its place, a new key goes last. *)
Fixpoint dict_set (d : dict) (k : Z) (v : V) : dict :=
  match d with
  | [] => [(k, v)]
  | (k', v') :: d' =>
      if Z.eqb k' k then (k', v) :: d' else (k', v') :: dict_set d' k v
  end.

(** [k in d] *)
Definition dict_contains (d : dict) (k : Z) : bool :=
  match dict_get d k with
  | Some _ => true
  | None => false
  end.

(** [d[k]] *)
Definition dict_getitem (d : dict) (k : Z) : result V :=
  match dict_get d k with
  | Some v => Ok v
  | None => Raise (KeyError k)
  end.

Definition keys (d : dict) : list Z := map fst d.
Definition values (d : dict) : list V := map snd d.

(** [for key, value in d.items(): d = body key value d].  The view is
    live: the item at the iterator's position is read from the dictionary
    as it is at that moment, and the iterator raises [RuntimeError] when
    the body changed the number of keys. *)
Fixpoint items_loop (body : Z -> V -> dict -> result dict)
    (fuel : nat) (pos : nat) (d : dict) : result dict :=
  match fuel with
  | O => Ok d
  | S fuel' =>
      match nth_error d pos with
      | None => Ok d
      | Some (key, value) =>
          rbind (body key value d) (fun d' =>
            if Nat.eqb (length d') (length d)
            then items_loop body fuel' (S pos) d'
            else Raise RuntimeError)
      end
  end.

Definition for_items (d : dict) (body : Z -> V -> dict -> result dict) : result dict :=
  items_loop body (length d) 0 d.

End Dict.
Arguments dict V : clear implicits.

(** [collections.Counter(y)]: one pass over [y]; each element's count is
    [c[elem] = c.get(elem, 0) + 1]. *)
Definition tally (c : dict Z) (elem : Z) : dict Z :=
  dict_set c elem (default 0%Z (dict_get c elem) + 1)%Z.

Definition Counter (y : list Z) : dict Z :=
  fold_left tally y [].

(** [sum(c.values())] *)
Definition sum_values (c : dict Z) : Z :=
  fold_right Z.add 0%Z (values c).

(* --------------------------------------------------------------------- *)
(** ** numpy arrays, as far as lines 105-107 use them *)
(* --------------------------------------------------------------------- *)

(** [y == c], elementwise. *)
Definition np_eq (y : list Z) (c : Z) : list bool :=
  map (fun v => Z.eqb v c) y.

(** [np.bitwise_or(a, b)] on boolean vectors; a vector of one element is
    broadcast, other length mismatches are refused. *)
Definition np_bitwise_or (a b : list bool) : result (list bool) :=
  if Nat.eqb (length a) (length b) then Ok (zip_with orb a b)
  else match a, b with
       | [x], _ => Ok (map (orb x) b)
       | _, [x] => Ok (map (fun v => orb v x) a)
       | _, _ => Raise ValueError
       end.

(** [a[mask]]: the entries of [a] at the true positions of [mask]; numpy
    refuses a mask whose length differs from the indexed dimension. *)
Fixpoint select {A} (a : list A) (mask : list bool) : list A :=
  match a, mask with
  | x :: a', b :: mask' => if b then x :: select a' mask' else select a' mask'
  | _, _ => []
  end.

Definition np_mask {A} (a : list A) (mask : list bool) : result (list A) :=
  if Nat.eqb (length a) (length mask) then Ok (select a mask)
  else Raise IndexError.

End Py.

(* ===================================================================== *)
(** * The script *)
(* ===================================================================== *)

Module Script.
Import Py.

(** The module docstring, printed by line 28. *)
Definition doc : string :=
  "
======================================================================
Usage of the ``sampling_target`` parameter for the different algorithm
======================================================================

This example shows the different usage of the parameter ``sampling_target`` for
the different family of samplers (i.e. over-sampling, under-sampling. or
cleaning methods).

".

(** The format strings of the [print] calls, in order of first use. *)
Definition msg_original : string :=
  "Information of the original iris data set: \n {}".
Definition msg_dict : string :=
  "Information of the iris data set after making it imbalanced using a dict: \n sampling_target={} \n y: {}".
Definition msg_callable : string :=
  "Information of the iris data set after making it imbalanced using a callable: \n sampling_target={} \n y: {}".
Definition msg_float_under : string :=
  "Information of the iris data set after making it balanced using a float and an under-sampling method: \n sampling_target={} \n y: {}".
Definition msg_float_over : string :=
  "Information of the iris data set after making it balanced using a float and an over-sampling method: \n sampling_target={} \n y: {}".
Definition msg_under : string :=
  "Information of the iris data set after making it balanced by under-sampling: \n sampling_target={} \n y: {}".
Definition msg_over : string :=
  "Information of the iris data set after making it balanced by over-sampling: \n sampling_target={} \n y: {}".
Definition msg_cleaning : string :=
  "Information of the iris data set after making it balanced by cleaning sampling: \n sampling_target={} \n y: {}".
Definition msg_callable_mode : string :=
  "Information of the iris data set after balancing using a callable mode:\n ratio={} \n y: {}".

(** The three sampler classes the script imports.  [TomekLinks] is the
    cleaning method. *)
Inductive sampler := RandomUnderSampler | RandomOverSampler | TomekLinks.


(** What the script passes as [sampling_target]. *)
Inductive sampling_target :=
| TDict (d : dict Z)
| TFloat (x : float)
| TStr (s : string)
| TList (classes : list Z)
| TCallable (f : list Z -> result (dict Z)).

(** A pie chart as [ax.pie] receives it. *)
Record pie := Pie {
  pie_sizes : list Z;
  pie_explode : list float;
  pie_labels : list Z;
  pie_shadow : bool;
  pie_autopct : string
}.

(** A figure with its single axes: what was drawn on it and its aspect. *)
Record figure := Figure {
  fig_pie : option pie;
  fig_axis : option string
}.

(** Which entry point of the resampling library is called. *)
Inductive callee := MakeImbalance | FitSample (s : sampler).

(** The five shapes a [sampling_target] can take. *)
Inductive shape := Mapping | Ratio | Policy | Classes | Function.

Definition shape_of (t : sampling_target) : shape :=
  match t with
  | TDict _ => Mapping
  | TFloat _ => Ratio
  | TStr _ => Policy
  | TList _ => Classes
  | TCallable _ => Function
  end.

(** The library calls of the script in program order, each with the shape
    of the target it is given (lines 61, 83, 112, 127, 145, 154, 166, 185,
    194, 210 and 234). *)
Definition demonstrations : list (callee * shape) :=
  [ (MakeImbalance, Mapping);
    (MakeImbalance, Function);
    (FitSample RandomUnderSampler, Ratio);
    (FitSample RandomOverSampler, Ratio);
    (FitSample RandomUnderSampler, Policy);
    (FitSample RandomOverSampler, Policy);
    (FitSample TomekLinks, Policy);
    (FitSample RandomUnderSampler, Mapping);
    (FitSample RandomOverSampler, Mapping);
    (FitSample TomekLinks, Classes);
    (FitSample RandomUnderSampler, Function) ].


#[global] Instance float_eq_dec : EqDecision float.
Proof. solve_decision. Defined.
#[global] Instance pie_eq_dec : EqDecision pie.
Proof. solve_decision. Defined.
#[global] Instance figure_eq_dec : EqDecision figure.
Proof. solve_decision. Defined.
#[global] Instance shape_eq_dec : EqDecision shape.
Proof. solve_decision. Defined.
#[global] Instance sampler_eq_dec : EqDecision sampler.
Proof. solve_decision. Defined.
#[global] Instance callee_eq_dec : EqDecision callee.
Proof. solve_decision. Defined.

(** [int(value * m)] *)
Definition scaled (value : Z) (m : float) : result Z :=
  rbind (int_mul_float value m) int_of_float.

(** Lines 75-80: the first [ratio_multiplier]. *)
Module Line75.
Definition multiplier : dict float := [(0, f0_5); (1, f0_7); (2, f0_95)]%Z.

Definition ratio_multiplier (y : list Z) : result (dict Z) :=
  let target_stats := Counter y in
  for_items target_stats (fun key value target_stats =>
    rbind (dict_getitem multiplier key) (fun m =>
    rbind (scaled value m) (fun v =>
    Ok (dict_set target_stats key v)))).
End Line75.

(** Lines 225-231: the second [ratio_multiplier]. *)
Module Line225.
Definition multiplier : dict float := [(1, f0_7); (2, f0_95)]%Z.

Definition ratio_multiplier (y : list Z) : result (dict Z) :=
  let target_stats := Counter y in
  for_items target_stats (fun key value target_stats =>
    if dict_contains multiplier key then
      rbind (dict_getitem multiplier key) (fun m =>
      rbind (scaled value m) (fun v =>
      Ok (dict_set target_stats key v)))
    else Ok target_stats).
End Line225.

(** [v] is the floor of the binary64 product [count * m] that the code
    forms; how far that is from the exact product is another matter, see
    [float_target]. *)
Definition floor_times (m : float) (count v : Z) : Prop :=
  exists p, int_mul_float count m = Ok p /\ floor p = Some v.

(** The target the second [ratio_multiplier] computes for a class, in
    terms of the float products: class 1 gets the floor of the binary64
    product of 0.7 and its count, class 2 that of 0.95 and its count, every
    other class keeps its count. *)
Definition described_target (key count v : Z) : Prop :=
  match key with
  | 1%Z => floor_times f0_7 count v
  | 2%Z => floor_times f0_95 count v
  | _ => v = count
  end.

(** The classes of the iris data set, the keys of the first multiplier
    table. *)
Definition iris_class (c : Z) : Prop := (c = 0 \/ c = 1 \/ c = 2)%Z.

(** The target of a class as the description of the second
    [ratio_multiplier] words it, the products taken exactly: class 1 gets
    the floor of seven tenths of its count, class 2 the floor of nineteen
    twentieths of its count, every other class keeps its count. *)
Definition stated_target (key count v : Z) : Prop :=
  match key with
  | 1 => v = 7 * count / 10
  | 2 => v = 19 * count / 20
  | _ => v = count
  end%Z.

(** The target the code gives: [int(count * 0.7)] and
    [int(count * 0.95)], which binary64 rounding can leave one below the
    exact floor and never above it; every other class keeps its count. *)
Definition float_target (key count v : Z) : Prop :=
  match key with
  | 1 => scaled count f0_7 = Ok v
         /\ 7 * count / 10 - 1 <= v <= 7 * count / 10
  | 2 => scaled count f0_95 = Ok v
         /\ 19 * count / 20 - 1 <= v <= 19 * count / 20
  | _ => v = count
  end%Z.

(** The target the first [ratio_multiplier] gives a class of the iris
    data: half the count of class 0, rounded down, and for classes 1 and 2
    what [float_target] says. *)
Definition first_target (key count v : Z) : Prop :=
  match key with
  | 0 => v = count / 2
  | 1 | 2 => float_target key count v
  | _ => False
  end%Z.

Section WithLibrary.

(** The feature rows are never inspected by the script.  [World] is the
    hidden state of the resampling library (its random generator). *)
Context {Row World : Type}.

(** What [load_iris()] returns. *)
Variable iris_data : list Row.
Variable iris_target : list Z.

(** The resampling library: [make_imbalance(X, y, sampling_target=t)] and
    [Sampler(sampling_target=t).fit_sample(X, y)]. *)
Variable make_imbalance :
  World -> list Row -> list Z -> sampling_target -> result (list Row * list Z) * World.
Variable fit_sample :
  World -> sampler -> sampling_target -> list Row -> list Z ->
  result (list Row * list Z) * World.

(** Values of the module's global names. *)
Inductive value :=
| VDataset (data : list Row) (target : list Z)
| VTarget (t : sampling_target)
| VFunction (f : list Z -> result (dict Z))
| VMatrix (X : list Row)
| VVector (y : list Z)
| VMask (m : list bool)
| VSampler (s : sampler) (t : sampling_target).

(** What the outside can see of a run, in order. *)
Inductive event :=
| Print (text : string) (target : option sampling_target) (stats : option (dict Z))
| Subplots (fig : nat)
| DrawPie (fig : nat) (p : pie)
| Axis (fig : nat) (mode : string)
| Call (f : callee) (t : sampling_target) (X : list Row) (y : list Z)
       (r : result (list Row * list Z))
| Show (figs : list figure).

Record state := State {
  globals : gmap string value;
  world : World;
  figures : list figure;
  trace : list event
}.

Definition set_globals (g : gmap string value) (st : state) : state :=
  State g (world st) (figures st) (trace st).
Definition set_world (w : World) (st : state) : state :=
  State (globals st) w (figures st) (trace st).
Definition set_figures (f : list figure) (st : state) : state :=
  State (globals st) (world st) f (trace st).
Definition log (ev : event) (st : state) : state :=
  State (globals st) (world st) (figures st) (trace st ++ [ev]).

(** Statements: a state transformer that may raise. *)
Definition M (A : Type) : Type := state -> result A * state.

Definition ret {A} (a : A) : M A := fun st => (Ok a, st).

Definition bind {A B} (m : M A) (k : A -> M B) : M B :=
  fun st =>
    match m st with
    | (Ok a, st') => k a st'
    | (Raise e, st') => (Raise e, st')
    end.

Definition lift {A} (r : result A) : M A := fun st => (r, st).

Definition raise {A} (e : exn) : M A := fun st => (Raise e, st).

Notation "x <- m ;; k" := (bind m (fun x => k))
  (at level 100, m at next level, k at level 200, right associativity, only parsing).
Notation "m ;;; k" := (bind m (fun _ => k))
  (at level 100, k at level 200, right associativity, only parsing).

(** [name = v] *)
Definition assign (name : string) (v : value) : M unit :=
  fun st => (Ok tt, set_globals (<[name := v]> (globals st)) st).

(** Reading a global name. *)
Definition read (name : string) : M value :=
  fun st =>
    match globals st !! name with
    | Some v => (Ok v, st)
    | None => (Raise (NameError name), st)
    end.

Definition read_dataset (name : string) : M (list Row * list Z) :=
  v <- read name ;;
  match v with VDataset d t => ret (d, t) | _ => raise (TypeError name) end.
Definition read_target (name : string) : M sampling_target :=
  v <- read name ;;
  match v with VTarget t => ret t | _ => raise (TypeError name) end.
Definition read_function (name : string) : M (list Z -> result (dict Z)) :=
  v <- read name ;;
  match v with VFunction f => ret f | _ => raise (TypeError name) end.
Definition read_matrix (name : string) : M (list Row) :=
  v <- read name ;;
  match v with VMatrix X => ret X | _ => raise (TypeError name) end.
Definition read_vector (name : string) : M (list Z) :=
  v <- read name ;;
  match v with VVector y => ret y | _ => raise (TypeError name) end.
Definition read_mask (name : string) : M (list bool) :=
  v <- read name ;;
  match v with VMask m => ret m | _ => raise (TypeError name) end.
Definition read_sampler (name : string) : M (sampler * sampling_target) :=
  v <- read name ;;
  match v with VSampler s t => ret (s, t) | _ => raise (TypeError name) end.

(** [print(text.format(target, stats))] *)
Definition print (text : string) (target : option sampling_target)
    (stats : option (dict Z)) : M unit :=
  fun st => (Ok tt, log (Print text target stats) st).

(** [fig, ax = plt.subplots()]: a new empty figure joins pyplot's open
    figures; its position there is its handle. *)
Definition plt_subplots : M nat :=
  fun st =>
    let h := length (figures st) in
    (Ok h, log (Subplots h) (set_figures (figures st ++ [Figure None None]) st)).

(** [ax.pie(sizes, explode=explode, labels=labels, shadow=..., autopct=...)].
    The call is modelled as always drawing.  That is matplotlib's behaviour
    on a list of sizes that is not empty; on an empty one recent versions
    raise [ValueError] where older ones draw nothing.  Statements that
    depend on the difference assume [never_empty] below. *)
Definition ax_pie (h : nat) (p : pie) : M unit :=
  fun st =>
    let draw f := Figure (Some p) (fig_axis f) in
    (Ok tt, log (DrawPie h p) (set_figures (alter draw h (figures st)) st)).

(** [ax.axis(mode)] *)
Definition ax_axis (h : nat) (mode : string) : M unit :=
  fun st =>
    let aspect f := Figure (fig_pie f) (Some mode) in
    (Ok tt, log (Axis h mode) (set_figures (alter aspect h (figures st)) st)).

(** [plt.show()]: every open figure is put on screen. *)
Definition plt_show : M unit :=
  fun st => (Ok tt, log (Show (figures st)) st).

(** Lines 31-40. *)
Definition pie_of (y : list Z) : pie :=
  let target_stats := Counter y in
  let labels := keys target_stats in
  let sizes := values target_stats in
  let explode := repeat f0_1 (length target_stats) in
  Pie sizes explode labels true "%1.1f%%".

Definition plot_pie (y : list Z) : M unit :=
  ax <- plt_subplots ;;
  ax_pie ax (pie_of y) ;;;
  ax_axis ax "equal".

(** The two calls into the resampling library.  Each is logged with its
    arguments and its outcome; an error it raises is the statement's. *)
Definition call_make_imbalance (X : list Row) (y : list Z) (t : sampling_target)
  : M (list Row * list Z) :=
  fun st =>
    let '(r, w) := make_imbalance (world st) X y t in
    (r, log (Call MakeImbalance t X y r) (set_world w st)).

Definition call_fit_sample (s : sampler) (t : sampling_target)
    (X : list Row) (y : list Z) : M (list Row * list Z) :=
  fun st =>
    let '(r, w) := fit_sample (world st) s t X y in
    (r, log (Call (FitSample s) t X y r) (set_world w st)).

(** [X, y = make_imbalance(iris.data, iris.target, sampling_target=t)] *)
Definition assign_X_y (Xy : list Row * list Z) : M unit :=
  assign "X" (VMatrix Xy.1) ;;;
  assign "y" (VVector Xy.2).

(** [X_res, y_res = sampler.fit_sample(X, y)] *)
Definition assign_res (Xy : list Row * list Z) : M unit :=
  assign "X_res" (VMatrix Xy.1) ;;;
  assign "y_res" (VVector Xy.2).

(** [print(text.format(sampling_target, Counter(y)))] with [y] read from
    the global [name]. *)
Definition print_target_and (name : string) (text : string) : M unit :=
  t <- read_target "sampling_target" ;;
  y <- read_vector name ;;
  print text (Some t) (Some (Counter y)).

(** [plot_pie(name)] *)
Definition plot_pie_of (name : string) : M unit :=
  y <- read_vector name ;;
  plot_pie y.

(** [name = Sampler(sampling_target=sampling_target)] *)
Definition construct (name : string) (s : sampler) : M unit :=
  t <- read_target "sampling_target" ;;
  assign name (VSampler s t).

(** [X_res, y_res = name.fit_sample(Xname, yname)] *)
Definition fit_sample_with (name Xname yname : string) : M unit :=
  st <- read_sampler name ;;
  X <- read_matrix Xname ;;
  y <- read_vector yname ;;
  res <- call_fit_sample st.1 st.2 X y ;;
  assign_res res.

(** Lines 28-66. *)
Definition block_dict : M unit :=
  print doc None None ;;;
  assign "iris" (VDataset iris_data iris_target) ;;;
  iris <- read_dataset "iris" ;;
  print msg_original None (Some (Counter iris.2)) ;;;
  iris <- read_dataset "iris" ;;
  plot_pie iris.2 ;;;
  assign "sampling_target" (VTarget (TDict [(0, 10); (1, 20); (2, 30)]%Z)) ;;;
  iris <- read_dataset "iris" ;;
  t <- read_target "sampling_target" ;;
  res <- call_make_imbalance iris.1 iris.2 t ;;
  assign_X_y res ;;;
  print_target_and "y" msg_dict ;;;
  plot_pie_of "y".

(** Lines 75-88. *)
Definition block_callable : M unit :=
  assign "ratio_multiplier" (VFunction Line75.ratio_multiplier) ;;;
  iris <- read_dataset "iris" ;;
  f <- read_function "ratio_multiplier" ;;
  res <- call_make_imbalance iris.1 iris.2 (TCallable f) ;;
  assign_X_y res ;;;
  print_target_and "y" msg_callable ;;;
  plot_pie_of "y".

(** Lines 105-132. *)
Definition block_float : M unit :=
  y <- read_vector "y" ;;
  y' <- read_vector "y" ;;
  mask <- lift (np_bitwise_or (np_eq y 0) (np_eq y' 2)) ;;
  assign "binary_mask" (VMask mask) ;;;
  y <- read_vector "y" ;;
  mask <- read_mask "binary_mask" ;;
  binary_y <- lift (np_mask y mask) ;;
  assign "binary_y" (VVector binary_y) ;;;
  X <- read_matrix "X" ;;
  mask <- read_mask "binary_mask" ;;
  binary_X <- lift (np_mask X mask) ;;
  assign "binary_X" (VMatrix binary_X) ;;;
  assign "sampling_target" (VTarget (TFloat f0_8)) ;;;
  construct "rus" RandomUnderSampler ;;;
  fit_sample_with "rus" "binary_X" "binary_y" ;;;
  print_target_and "y_res" msg_float_under ;;;
  plot_pie_of "y_res" ;;;
  construct "ros" RandomOverSampler ;;;
  fit_sample_with "ros" "binary_X" "binary_y" ;;;
  print_target_and "y_res" msg_float_over ;;;
  plot_pie_of "y_res".

(** Lines 142-170. *)
Definition block_str : M unit :=
  assign "sampling_target" (VTarget (TStr "not minority")) ;;;
  construct "rus" RandomUnderSampler ;;;
  fit_sample_with "rus" "X" "y" ;;;
  print_target_and "y_res" msg_under ;;;
  plot_pie_of "y_res" ;;;
  assign "sampling_target" (VTarget (TStr "not majority")) ;;;
  construct "ros" RandomOverSampler ;;;
  fit_sample_with "ros" "X" "y" ;;;
  print_target_and "y_res" msg_over ;;;
  plot_pie_of "y_res" ;;;
  assign "sampling_target" (VTarget (TStr "not minority")) ;;;
  construct "tl" TomekLinks ;;;
  fit_sample_with "tl" "X" "y" ;;;
  print_target_and "y_res" msg_cleaning ;;;
  plot_pie_of "y_res".

(** Lines 182-198. *)
Definition block_dict_samplers : M unit :=
  assign "sampling_target" (VTarget (TDict [(0, 10); (1, 15); (2, 20)]%Z)) ;;;
  construct "rus" RandomUnderSampler ;;;
  fit_sample_with "rus" "X" "y" ;;;
  print_target_and "y_res" msg_under ;;;
  plot_pie_of "y_res" ;;;
  assign "sampling_target" (VTarget (TDict [(0, 25); (1, 35); (2, 47)]%Z)) ;;;
  construct "ros" RandomOverSampler ;;;
  fit_sample_with "ros" "X" "y" ;;;
  print_target_and "y_res" msg_over ;;;
  plot_pie_of "y_res".

(** Lines 208-214. *)
Definition block_list : M unit :=
  assign "sampling_target" (VTarget (TList [0; 1; 2]%Z)) ;;;
  construct "tl" TomekLinks ;;;
  fit_sample_with "tl" "X" "y" ;;;
  print_target_and "y_res" msg_cleaning ;;;
  plot_pie_of "y_res".

(** Lines 225-241. *)
Definition block_callable_sampler : M unit :=
  assign "ratio_multiplier" (VFunction Line225.ratio_multiplier) ;;;
  f <- read_function "ratio_multiplier" ;;
  X <- read_matrix "X" ;;
  y <- read_vector "y" ;;
  res <- call_fit_sample RandomUnderSampler (TCallable f) X y ;;
  assign_res res ;;;
  print_target_and "y_res" msg_callable_mode ;;;
  plot_pie_of "y_res" ;;;
  plt_show.

(** The module body. *)
Definition script : M unit :=
  block_dict ;;;
  block_callable ;;;
  block_float ;;;
  block_str ;;;
  block_dict_samplers ;;;
  block_list ;;;
  block_callable_sampler.

(** A fresh interpreter: no global bound, no figure, nothing printed. *)
Definition initial (w : World) : state := State ∅ w [] [].

Definition run (w : World) : result unit * state := script (initial w).

(** [after m st Q]: running [m] from [st] ends with a result and a state
    that satisfy [Q]. *)
Definition after {A} (m : M A) (st : state) (Q : result A -> state -> Prop) : Prop :=
  Q (m st).1 (m st).2.

(** *** Reading a log *)

(** [everywhere P tr]: [P before ev after] holds at every event [ev] of
    [tr], with the events before and after it. *)
Fixpoint scan (P : list event -> event -> list event -> Prop)
    (before tr : list event) : Prop :=
  match tr with
  | [] => True
  | ev :: rest => P before ev rest /\ scan P (before ++ [ev]) rest
  end.

Definition everywhere (P : list event -> event -> list event -> Prop)
    (tr : list event) : Prop :=
  forall before ev rest, tr = before ++ ev :: rest -> P before ev rest.

(** The library calls in a log, each with the shape of its target. *)
Definition calls_of (tr : list event) : list (callee * shape) :=
  flat_map (fun ev =>
    match ev with
    | Call c t _ _ _ => [(c, shape_of t)]
    | _ => []
    end) tr.







(** Right after every transformation the summary of its output is printed
    and drawn. *)
Definition summaries_are_fresh (tr : list event) : Prop :=
  everywhere (fun _ ev rest =>
    match ev with
    | Call _ _ _ _ (Ok (_, y_out)) =>
        exists text target h rest',
          rest = Print text target (Some (Counter y_out))
                 :: Subplots h :: DrawPie h (pie_of y_out) :: Axis h "equal"
                 :: rest'
    | _ => True
    end) tr.

(** A library call that raises ends the run, with its own error. *)
Definition errors_propagate (r : result unit) (tr : list event) : Prop :=
  everywhere (fun _ ev rest =>
    match ev with
    | Call _ _ _ _ (Raise e) => rest = [] /\ r = Raise e
    | _ => True
    end) tr.

(** The callable given to the under-sampler is the second
    [ratio_multiplier]. *)
Definition under_sampler_gets_second (tr : list event) : Prop :=
  everywhere (fun _ ev _ =>
    match ev with
    | Call (FitSample RandomUnderSampler) (TCallable f) _ _ _ =>
        f = Line225.ratio_multiplier
    | _ => True
    end) tr.

(** A call whose labels and feature rows are aligned, on the way in and,
    if it returns, on the way out. *)
Definition aligned_call (ev : event) : Prop :=
  match ev with
  | Call _ _ X y r =>
      length X = length y /\
      match r with
      | Ok (X', y') => length X' = length y'
      | Raise _ => True
      end
  | _ => True
  end.

(** Modelled from the spec: the resampling functions [make_imbalance] and
    [fit_sample] are not among the sources; all the spec says of their
    results is that "labels and feature rows stay aligned by index". *)
Definition keeps_alignment : Prop :=
  (forall w X y t X' y' w',
     length X = length y ->
     make_imbalance w X y t = (Ok (X', y'), w') -> length X' = length y') /\
  (forall w s t X y X' y' w',
     length X = length y ->
     fit_sample w s t X y = (Ok (X', y'), w') -> length X' = length y').

(** *** More readings of a log *)

(** The label vectors returned by the library calls of a log, in order. *)
Definition outputs (tr : list event) : list (list Z) :=
  flat_map (fun ev =>
    match ev with
    | Call _ _ _ _ (Ok (_, y)) => [y]
    | _ => []
    end) tr.

(** The summaries printed, and the pies drawn with their figure handles. *)
Definition printed (tr : list event) : list (dict Z) :=
  flat_map (fun ev =>
    match ev with
    | Print _ _ (Some c) => [c]
    | _ => []
    end) tr.

Definition drawn (tr : list event) : list (nat * pie) :=
  flat_map (fun ev =>
    match ev with
    | DrawPie h p => [(h, p)]
    | _ => []
    end) tr.

(** The data set returned by the latest [make_imbalance], if any. *)
Definition imbalanced (tr : list event) : option (list Row * list Z) :=
  fold_left (fun acc ev =>
    match ev with
    | Call MakeImbalance _ _ _ (Ok a) => Some a
    | _ => acc
    end) tr None.

(** The mask of line 105. *)
Definition binary_mask (y : list Z) : list bool :=
  zip_with orb (np_eq y 0) (np_eq y 2).

(** Where the data of each library call come from: [make_imbalance] is
    given the iris data; a sampler is given the latest imbalanced data
    set, cut down to classes 0 and 2 when its target is a float ratio. *)
Definition data_flow (tr : list event) : Prop :=
  everywhere (fun before ev _ =>
    match ev with
    | Call MakeImbalance _ X y _ => X = iris_data /\ y = iris_target
    | Call (FitSample _) t X y _ =>
        match imbalanced before with
        | Some (X2, y2) =>
            match t with
            | TFloat _ =>
                X = select X2 (binary_mask y2) /\ y = select y2 (binary_mask y2)
            | _ => X = X2 /\ y = y2
            end
        | None => False
        end
    | _ => True
    end) tr.

(** What is printed as [sampling_target] after a call: the target of the
    call, except after the two calls given a callable, where the global
    [sampling_target] still holds an older value. *)
Definition printed_targets (tr : list event) : Prop :=
  everywhere (fun _ ev rest =>
    match ev with
    | Call c t _ _ (Ok _) =>
        match rest with
        | Print _ (Some t') _ :: _ =>
            match t, c with
            | TCallable _, MakeImbalance =>
                t' = TDict [(0, 10); (1, 20); (2, 30)]%Z
            | TCallable _, FitSample _ => t' = TList [0; 1; 2]%Z
            | _, _ => t' = t
            end
        | _ => False
        end
    | _ => True
    end) tr.

(** The callable-based [make_imbalance] returned rows and labels of
    different lengths. *)
Definition misaligned_output (ev : event) : Prop :=
  match ev with
  | Call MakeImbalance (TCallable _) _ _ (Ok (X, y)) => length X <> length y
  | _ => False
  end.

(** The library never returns an empty label vector.  (A pie without
    wedges is where matplotlib versions differ: recent ones refuse it with
    a [ValueError], which [ax_pie] does not model.) *)
Definition never_empty : Prop :=
  (forall w X y t X' y' w',
     make_imbalance w X y t = (Ok (X', y'), w') -> y' <> []) /\
  (forall w s t X y X' y' w',
     fit_sample w s t X y = (Ok (X', y'), w') -> y' <> []).

End WithLibrary.

End Script.

(* ===================================================================== *)
(** * Concrete data: the iris labels and a deterministic library *)
(* ===================================================================== *)

Module Demo.
Import Py Script.

(** The iris data set has 150 samples, 50 of each class, in class order.
    A feature row is stood for by its index. *)
Definition iris_data : list Z := map Z.of_nat (seq 0 150).
Definition iris_target : list Z :=
  (repeat 0 50 ++ repeat 1 50 ++ repeat 2 50)%Z.

(** Keep, of every class that [wanted] names, at most the wanted number of
    samples, the earliest ones; other classes are kept whole. *)
Fixpoint keep (wanted : dict Z) (samples : list (Z * Z)) : list (Z * Z) :=
  match samples with
  | [] => []
  | (x, c) :: rest =>
      match dict_get wanted c with
      | None => (x, c) :: keep wanted rest
      | Some n =>
          if (0 <? n)%Z then (x, c) :: keep (dict_set wanted c (n - 1)%Z) rest
          else keep wanted rest
      end
  end.

(** A stand-in for the resampling library, without randomness: a target
    given as counts (a dict, or a callable applied to [y]) keeps the first
    samples of each class up to its count; any other target leaves the
    data as it is.  An error of the callable is the call's error. *)
Definition resample (t : sampling_target) (X : list Z) (y : list Z)
  : result (list Z * list Z) :=
  let counts :=
    match t with
    | TDict d => Ok (Some d)
    | TCallable f => rbind (f y) (fun d => Ok (Some d))
    | _ => Ok None
    end in
  rbind counts (fun c =>
    match c with
    | Some d => let kept := keep d (combine X y) in Ok (map fst kept, map snd kept)
    | None => Ok (X, y)
    end).

Definition make_imbalance (w : unit) (X : list Z) (y : list Z) (t : sampling_target) :=
  (resample t X y, w).

Definition fit_sample (w : unit) (s : sampler) (t : sampling_target)
    (X : list Z) (y : list Z) :=
  (resample t X y, w).

(** The same stand-in, refusing to return an empty data set. *)
Definition refuse_empty (r : result (list Z * list Z)) : result (list Z * list Z) :=
  match r with
  | Ok (_, []) => Raise (LibraryError "no samples")
  | _ => r
  end.

Definition careful_make_imbalance (w : unit) (X : list Z) (y : list Z)
    (t : sampling_target) :=
  (refuse_empty (resample t X y), w).

Definition careful_fit_sample (w : unit) (s : sampler) (t : sampling_target)
    (X : list Z) (y : list Z) :=
  (refuse_empty (resample t X y), w).

Definition run : result unit * state :=
  Script.run iris_data iris_target make_imbalance fit_sample tt.

End Demo.

(* ===================================================================== *)
(** * Facts about dictionaries and [Counter] *)
(* ===================================================================== *)

Import Py.

Section DictFacts.
Context {V : Type}.
Implicit Types (d : dict V) (k : Z) (v : V).

Lemma dict_get_set_eq d k v : dict_get (dict_set d k v) k = Some v.
Proof.
  induction d as [|[k' v'] d IH]; simpl.
  - by rewrite Z.eqb_refl.
  - destruct (Z.eqb_spec k' k) as [->|Hne]; simpl.
    + by rewrite Z.eqb_refl.
    + by destruct (Z.eqb_spec k' k).
Qed.

Lemma dict_get_set_ne d k k' v :
  k <> k' -> dict_get (dict_set d k v) k' = dict_get d k'.
Proof.
  intros Hne. induction d as [|[k0 v0] d IH]; simpl.
  - by destruct (Z.eqb_spec k k').
  - destruct (Z.eqb_spec k0 k) as [->|Hk]; simpl.
    + by destruct (Z.eqb_spec k k').
    + by rewrite IH.
Qed.

Lemma dict_get_None d k : dict_get d k = None <-> k ∉ keys d.
Proof.
  induction d as [|[k' v'] d IH]; simpl.
  - split; [intros _; apply not_elem_of_nil | done].
  - rewrite not_elem_of_cons. destruct (Z.eqb_spec k' k) as [->|Hne].
    + split; [done | by intros [? _]].
    + rewrite IH. split; [by intros ?; split | by intros [_ ?]].
Qed.

Lemma dict_get_Some_elem d k v : dict_get d k = Some v -> (k, v) ∈ d.
Proof.
  induction d as [|[k' v'] d IH]; simpl; [done|].
  destruct (Z.eqb_spec k' k) as [->|Hne].
  - intros [= ->]. apply list_elem_of_here.
  - intros H. apply list_elem_of_further. by apply IH.
Qed.

Lemma dict_get_of_elem d k v :
  NoDup (keys d) -> (k, v) ∈ d -> dict_get d k = Some v.
Proof.
  induction d as [|[k' v'] d IH]; simpl.
  - intros _ H. by apply elem_of_nil in H.
  - rewrite NoDup_cons. intros [Hk Hd] [Heq|Hin]%elem_of_cons.
    + injection Heq as -> ->. by rewrite Z.eqb_refl.
    + destruct (Z.eqb_spec k' k) as [->|Hne]; [|by apply IH].
      exfalso. apply Hk. apply (list_elem_of_fmap_2 fst) in Hin. exact Hin.
Qed.

Lemma keys_set d k v :
  keys (dict_set d k v) = if dict_contains d k then keys d else keys d ++ [k].
Proof.
  unfold dict_contains. induction d as [|[k' v'] d IH]; simpl; [done|].
  destruct (Z.eqb_spec k' k) as [->|Hne]; simpl; [done|].
  rewrite IH. by destruct (dict_get d k).
Qed.

Lemma length_set_present d k v :
  dict_contains d k = true -> length (dict_set d k v) = length d.
Proof.
  intros H. rewrite <- !(length_map fst). change (map fst) with (@keys V).
  by rewrite keys_set, H.
Qed.

Lemma NoDup_keys_set d k v : NoDup (keys d) -> NoDup (keys (dict_set d k v)).
Proof.
  intros Hd. rewrite keys_set. unfold dict_contains.
  destruct (dict_get d k) eqn:Hg; [done|].
  apply NoDup_app. split; [done|]. split; [|apply NoDup_singleton].
  intros x Hx ->%list_elem_of_singleton. by apply dict_get_None in Hg.
Qed.

(** Writing a key that is in the dictionary changes its item in place. *)
Lemma dict_set_at (pre post : dict V) k v v' :
  k ∉ keys pre ->
  dict_set (pre ++ (k, v) :: post) k v' = pre ++ (k, v') :: post.
Proof.
  induction pre as [|[k0 v0] pre IH]; simpl.
  - intros _. by rewrite Z.eqb_refl.
  - rewrite not_elem_of_cons. intros [Hne Hpre].
    destruct (Z.eqb_spec k0 k) as [->|_]; [done|]. by rewrite IH.
Qed.

Lemma dict_get_at (pre post : dict V) k v :
  k ∉ keys pre -> dict_get (pre ++ (k, v) :: post) k = Some v.
Proof.
  induction pre as [|[k0 v0] pre IH]; simpl.
  - intros _. by rewrite Z.eqb_refl.
  - rewrite not_elem_of_cons. intros [Hne Hpre].
    destruct (Z.eqb_spec k0 k) as [->|_]; [done|]. by apply IH.
Qed.

End DictFacts.

Section CounterFacts.
Local Open Scope Z_scope.

Lemma Counter_fold y : Counter y = fold_left tally y [].
Proof. reflexivity. Qed.

Lemma sum_values_set (c : dict Z) k v :
  sum_values (dict_set c k v) = sum_values c - default 0 (dict_get c k) + v.
Proof.
  unfold sum_values, values.
  induction c as [|[k' v'] c IH]; simpl; [lia|].
  destruct (Z.eqb_spec k' k) as [->|Hne]; simpl; [lia|].
  rewrite IH. lia.
Qed.

Lemma sum_values_tally c y :
  sum_values (fold_left tally y c) = sum_values c + Z.of_nat (length y).
Proof.
  revert c. induction y as [|x y IH]; intros c; simpl; [lia|].
  rewrite IH. unfold tally. rewrite sum_values_set. lia.
Qed.

Lemma get_tally c y k :
  default 0 (dict_get (fold_left tally y c) k)
  = default 0 (dict_get c k) + Z.of_nat (count_occ Z.eq_dec y k).
Proof.
  revert c. induction y as [|x y IH]; intros c; simpl; [lia|].
  rewrite IH. unfold tally.
  destruct (Z.eq_dec x k) as [->|Hne].
  - rewrite dict_get_set_eq. simpl. lia.
  - by rewrite dict_get_set_ne.
Qed.

Lemma keys_tally c y k :
  k ∈ keys (fold_left tally y c) <-> k ∈ keys c \/ k ∈ y.
Proof.
  revert c. induction y as [|x y IH]; intros c; simpl.
  - split; [by left | intros [?|H]; [done | by apply elem_of_nil in H]].
  - rewrite IH, elem_of_cons. unfold tally. rewrite keys_set.
    unfold dict_contains. destruct (dict_get c x) eqn:Hg.
    + apply dict_get_Some_elem, (list_elem_of_fmap_2 fst) in Hg. simpl in Hg.
      split; [tauto|]. intros [?|[->|?]]; auto.
    + rewrite elem_of_app, list_elem_of_singleton. tauto.
Qed.

Lemma NoDup_keys_tally c y :
  NoDup (keys c) -> NoDup (keys (fold_left tally y c)).
Proof.
  revert c. induction y as [|x y IH]; intros c Hc; simpl; [done|].
  apply IH. by apply NoDup_keys_set.
Qed.

Lemma positive_tally c y :
  (forall k v, (k, v) ∈ c -> 0 < v) ->
  NoDup (keys c) ->
  forall k v, (k, v) ∈ fold_left tally y c -> 0 < v.
Proof.
  revert c. induction y as [|x y IH]; intros c Hpos Hnd; simpl; [done|].
  apply IH; [|by apply NoDup_keys_set].
  intros k v Hin. apply dict_get_of_elem in Hin; [|by apply NoDup_keys_set].
  unfold tally in Hin. destruct (Z.eq_dec x k) as [->|Hne].
  - rewrite dict_get_set_eq in Hin. injection Hin as <-.
    destruct (dict_get c k) eqn:Hg; simpl; [|lia].
    apply dict_get_Some_elem, Hpos in Hg. lia.
  - rewrite dict_get_set_ne in Hin by done.
    by apply dict_get_Some_elem, Hpos in Hin.
Qed.

Lemma NoDup_keys_Counter y : NoDup (keys (Counter y)).
Proof. apply NoDup_keys_tally, NoDup_nil_2. Qed.

Lemma keys_Counter y k : k ∈ keys (Counter y) <-> k ∈ y.
Proof.
  rewrite Counter_fold, keys_tally. simpl.
  split; [intros [H|?]; [by apply elem_of_nil in H | done] | by right].
Qed.

(** Every item of [Counter(y)] is a label of [y] with its number of
    occurrences, which is at least one. *)
Lemma Counter_item y k v :
  (k, v) ∈ Counter y -> v = Z.of_nat (count_occ Z.eq_dec y k) /\ 0 < v.
Proof.
  intros Hin. split.
  - pose proof (get_tally [] y k) as H. rewrite <- Counter_fold in H.
    rewrite (dict_get_of_elem _ _ _ (NoDup_keys_Counter y) Hin) in H.
    simpl in H. lia.
  - apply (positive_tally [] y) with k; [|apply NoDup_nil_2|done].
    intros ? ? H. by apply elem_of_nil in H.
Qed.

Lemma count_occ_le_length (y : list Z) k :
  (count_occ Z.eq_dec y k <= length y)%nat.
Proof.
  induction y as [|x y IH]; simpl; [lia|]. destruct (Z.eq_dec x k); lia.
Qed.

End CounterFacts.

Section FloatFacts.
Local Open Scope Z_scope.

Lemma digits_bound m : 0 <= m -> m < 2 ^ digits m.
Proof.
  intros Hm. unfold digits. destruct (Z.eqb_spec m 0) as [->|Hne]; [done|].
  apply Z.log2_spec. lia.
Qed.

Lemma digits_nonneg m : 0 <= digits m.
Proof.
  unfold digits. destruct (m =? 0); [lia|]. pose proof (Z.log2_nonneg m). lia.
Qed.

Lemma digits_le m d : 0 <= m -> 0 <= d -> m < 2 ^ d -> digits m <= d.
Proof.
  intros Hm Hd Hlt. unfold digits. destruct (Z.eqb_spec m 0) as [->|Hne]; [done|].
  assert (Z.log2 m < d); [|lia]. apply Z.log2_lt_pow2; lia.
Qed.

Lemma digits_lower m : 0 < m -> 2 ^ (digits m - 1) <= m.
Proof.
  intros Hm. unfold digits. destruct (Z.eqb_spec m 0) as [->|Hne]; [lia|].
  replace (Z.log2 m + 1 - 1) with (Z.log2 m) by lia. apply Z.log2_spec. lia.
Qed.

Lemma digits_mul a b : 0 <= a -> 0 <= b -> digits (a * b) <= digits a + digits b.
Proof.
  intros Ha Hb. pose proof (digits_nonneg a). pose proof (digits_nonneg b).
  apply digits_le; [lia..|]. rewrite Z.pow_add_r by done.
  pose proof (digits_bound a Ha). pose proof (digits_bound b Hb). nia.
Qed.

(** Rounding a quotient to nearest moves it by at most half a unit. *)
Lemma round_shift_bound m s :
  0 <= m -> 0 < s ->
  m / 2 ^ s <= round_shift m s <= m / 2 ^ s + 1
  /\ 2 * round_shift m s * 2 ^ s <= 2 * m + 2 ^ s.
Proof.
  intros Hm Hs. unfold round_shift.
  assert (HP : 0 < 2 ^ s) by (apply Z.pow_pos_nonneg; lia).
  assert (Hhalf : 2 ^ s = 2 * 2 ^ (s - 1)).
  { rewrite <- Z.pow_succ_r by lia. f_equal. lia. }
  pose proof (Z.div_mod m (2 ^ s) ltac:(lia)) as Hdm.
  pose proof (Z.mod_pos_bound m (2 ^ s) HP) as Hr.
  set (q := m / 2 ^ s) in *. set (r := m mod 2 ^ s) in *.
  set (P := 2 ^ s) in *. set (h := 2 ^ (s - 1)) in *.
  destruct (Z.ltb_spec h r); simpl.
  - split; [lia|nia].
  - destruct (Z.eqb_spec r h); simpl; [destruct (Z.odd q)|]; split; lia || nia.
Qed.

(** Rounding a non-negative value that is neither tiny nor huge gives a
    finite float, larger than the value by a factor of at most
    [1 + 2^-53]. *)
Lemma round_nonneg m e :
  0 <= m -> emin <= e -> digits m + e < emax ->
  exists q s,
    round m e = Finite q (e + s) /\ 0 <= s /\ 0 <= q
    /\ digits q + s <= digits m + 1
    /\ q * 2 ^ s * 2 ^ 53 <= m * (2 ^ 53 + 1).
Proof.
  intros Hm He Hd. unfold round. rewrite (Z.abs_eq m) by done.
  pose proof (digits_nonneg m) as Hdm.
  assert (Hsgn : forall q, 0 <= q -> (m = 0 -> q = 0) -> Z.sgn m * q = q).
  { intros q Hq H0. destruct (Z.eq_dec m 0) as [->|Hne]; [rewrite H0; lia|].
    rewrite Z.sgn_pos by lia. lia. }
  unfold excess. destruct (Z.le_gt_cases (digits m) prec) as [Hsmall|Hbig].
  - replace (Z.max 0 (Z.max (digits m - prec) (emin - e))) with 0 by lia.
    simpl (0 =? 0). cbv iota.
    destruct (Z.ltb_spec emax (digits m + (e + 0))); [lia|].
    exists m, 0. rewrite Hsgn by done. repeat split; try lia.
  - replace (Z.max 0 (Z.max (digits m - prec) (emin - e)))
      with (digits m - prec) by lia.
    unfold prec in *. set (s := digits m - 53) in *.
    assert (Hs : 0 < s) by lia.
    destruct (Z.eqb_spec s 0); [lia|].
    assert (Hm0 : 0 < m).
    { destruct (Z.eq_dec m 0) as [->|]; [|lia]. unfold digits in Hbig. simpl in Hbig. lia. }
    destruct (round_shift_bound m s Hm Hs) as [[Hlo Hhi] Hhalf].
    set (q := round_shift m s) in *.
    assert (HP : 0 < 2 ^ s) by (apply Z.pow_pos_nonneg; lia).
    assert (Hup : m < 2 ^ s * 2 ^ 53).
    { rewrite <- Z.pow_add_r by lia. replace (s + 53) with (digits m) by lia.
      by apply digits_bound. }
    assert (Hdown : 2 ^ s * 2 ^ 52 <= m).
    { rewrite <- Z.pow_add_r by lia. replace (s + 52) with (digits m - 1) by lia.
      by apply digits_lower. }
    assert (Hq0 : 0 <= m / 2 ^ s) by (apply Z.div_pos; lia).
    assert (Hq53 : m / 2 ^ s < 2 ^ 53) by (apply Z.div_lt_upper_bound; lia).
    assert (Hdq : digits q <= 54) by (apply digits_le; lia).
    destruct (Z.ltb_spec emax (digits q + (e + s))); [lia|].
    exists q, s. rewrite Hsgn by lia. repeat split; try lia.
Qed.

(** The count of a class times a multiplier below one, truncated: the
    arithmetic fact behind [int(value * multiplier[key])]. *)
Lemma product_below (n q1 q2 A B M K : Z) :
  0 <= n -> 0 < A -> 0 < B -> 0 <= M -> 0 < K -> 0 <= q1 ->
  q1 * A * K <= n * (K + 1) ->
  q2 * B * K <= q1 * M * (K + 1) ->
  M * (K + 1) * (K + 1) <= K * K * K ->
  q2 * A * B <= n * K.
Proof.
  intros Hn HA HB HM HK Hq1 H1 H2 H3.
  assert (E1 : (q2 * B * K) * (A * K) <= (q1 * M * (K + 1)) * (A * K))
    by (apply Z.mul_le_mono_nonneg_r; lia).
  assert (E2 : (q1 * A * K) * (M * (K + 1)) <= (n * (K + 1)) * (M * (K + 1)))
    by (apply Z.mul_le_mono_nonneg_r; lia).
  assert (E3 : n * (M * (K + 1) * (K + 1)) <= n * (K * K * K))
    by (apply Z.mul_le_mono_nonneg_l; lia).
  assert (E4 : (q2 * A * B) * (K * K) <= (n * K) * (K * K)) by lia.
  apply Z.mul_le_mono_pos_r in E4; lia.
Qed.

Lemma scaled_below (n M : Z) :
  0 <= n <= 2 ^ 63 - 1 -> 0 <= M ->
  M * (2 ^ 53 + 1) * (2 ^ 53 + 1) <= 2 ^ 53 * 2 ^ 53 * 2 ^ 53 ->
  exists p z,
    int_mul_float n (Finite M (-53)) = Ok p
    /\ int_of_float p = Ok z /\ floor p = Some z /\ 0 <= z <= n.
Proof.
  intros Hn HM Hc.
  assert (Hdn : digits n <= 63) by (apply digits_le; lia).
  assert (HdM : digits M <= 53) by (apply digits_le; lia).
  destruct (round_nonneg n 0) as (q1 & s1 & Hr1 & Hs1 & Hq1 & Hd1 & Hb1);
    [lia | unfold emin, emax, prec; lia | unfold emax; lia |].
  pose proof (digits_nonneg q1) as Hdq1.
  pose proof (digits_mul q1 M Hq1 HM) as Hdp.
  destruct (round_nonneg (q1 * M) (0 + s1 + -53))
    as (q2 & s2 & Hr2 & Hs2 & Hq2 & Hd2 & Hb2);
    [lia | unfold emin, emax, prec; lia | unfold emax; lia |].
  unfold int_mul_float, float_of_int. rewrite Hr1. simpl. rewrite Hr2.
  remember (0 + s1 + -53 + s2) as e2 eqn:He2.
  assert (HA : 0 < 2 ^ s1) by (apply Z.pow_pos_nonneg; lia).
  assert (HB : 0 < 2 ^ s2) by (apply Z.pow_pos_nonneg; lia).
  assert (Hle : q2 * 2 ^ s1 * 2 ^ s2 <= n * 2 ^ 53).
  { apply (product_below n q1 q2 (2 ^ s1) (2 ^ s2) M (2 ^ 53)); lia. }
  exists (Finite q2 e2). simpl. destruct (Z.leb_spec 0 e2) as [He|He].
  - exists (q2 * 2 ^ e2). do 3 (split; [reflexivity|]).
    assert (HE : 0 < 2 ^ e2) by (apply Z.pow_pos_nonneg; lia).
    assert (Hsplit : 2 ^ s1 * 2 ^ s2 = 2 ^ e2 * 2 ^ 53).
    { rewrite <- !Z.pow_add_r by lia. f_equal. lia. }
    split; [apply Z.mul_nonneg_nonneg; lia|].
    apply (Z.mul_le_mono_pos_r _ _ (2 ^ 53)); [lia|].
    replace (q2 * 2 ^ e2 * 2 ^ 53) with (q2 * (2 ^ e2 * 2 ^ 53)) by ring.
    rewrite <- Hsplit. lia.
  - exists (q2 / 2 ^ (- e2)).
    assert (HE : 0 < 2 ^ (- e2)) by (apply Z.pow_pos_nonneg; lia).
    assert (Hsplit : 2 ^ 53 = 2 ^ (- e2) * (2 ^ s1 * 2 ^ s2)).
    { rewrite <- !Z.pow_add_r by lia. f_equal. lia. }
    rewrite Z.quot_div_nonneg by lia.
    do 3 (split; [reflexivity|]).
    split; [apply Z.div_pos; lia|].
    apply Z.div_le_upper_bound; [lia|].
    apply (Z.mul_le_mono_pos_r _ _ (2 ^ s1 * 2 ^ s2)); [lia|].
    replace (2 ^ (- e2) * n * (2 ^ s1 * 2 ^ s2))
      with (n * (2 ^ (- e2) * (2 ^ s1 * 2 ^ s2))) by ring.
    rewrite <- Hsplit. lia.
Qed.

End FloatFacts.

(* ===================================================================== *)
(** * Running statements symbolically *)
(* ===================================================================== *)

Import Script.

Lemma np_bitwise_or_eq (y : list Z) a b :
  np_bitwise_or (np_eq y a) (np_eq y b) = Ok (zip_with orb (np_eq y a) (np_eq y b)).
Proof.
  unfold np_bitwise_or, np_eq. rewrite !length_map. by rewrite Nat.eqb_refl.
Qed.

Lemma length_mask (y : list Z) a b :
  length (zip_with orb (np_eq y a) (np_eq y b)) = length y.
Proof. unfold np_eq. rewrite length_zip_with, !length_map. lia. Qed.

Lemma np_mask_aligned {A} (a : list A) (mask : list bool) :
  length a = length mask -> np_mask a mask = Ok (select a mask).
Proof. intros H. unfold np_mask. by rewrite H, Nat.eqb_refl. Qed.

Lemma np_mask_misaligned {A} (a : list A) (mask : list bool) :
  length a <> length mask -> np_mask a mask = Raise IndexError.
Proof.
  intros H. unfold np_mask. by destruct (Nat.eqb_spec (length a) (length mask)).
Qed.

Lemma length_select {A B} (a : list A) (b : list B) (mask : list bool) :
  length a = length b -> length (select a mask) = length (select b mask).
Proof.
  revert b mask. induction a as [|x a IH]; intros [|x' b] [|[] mask] H;
    simpl in *; try done; try lia.
  - f_equal. apply IH. lia.
  - apply IH. lia.
Qed.

Section Steps.
Context {Row World : Type}.
Abbreviation M' := (@M Row World).
Abbreviation state' := (@state Row World).
Implicit Types (g : gmap string (@value Row)) (w : World) (f : list figure)
  (t : list (@event Row)).

Lemma after_bind_bind {A B C} (m : M' A) (h : A -> M' B) (k : B -> M' C) st Q :
  after (bind m (fun x => bind (h x) k)) st Q -> after (bind (bind m h) k) st Q.
Proof. unfold after, bind. by destruct (m st) as [[a|e] st']. Qed.

Lemma after_ret {A B} (a : A) (k : A -> M' B) st Q :
  after (k a) st Q -> after (bind (ret a) k) st Q.
Proof. done. Qed.

Lemma after_raise {A B} e (k : A -> M' B) st (Q : result B -> state' -> Prop) :
  Q (Raise e) st -> after (bind (raise e) k) st Q.
Proof. done. Qed.

Lemma after_lift {A B} (r : result A) (k : A -> M' B) st (Q : result B -> state' -> Prop) :
  match r with
  | Ok a => after (k a) st Q
  | Raise e => Q (Raise e) st
  end ->
  after (bind (lift r) k) st Q.
Proof. by destruct r. Qed.

Lemma after_assign {B} name v (k : unit -> M' B) g w f t Q :
  after (k tt) (State (<[name := v]> g) w f t) Q ->
  after (bind (assign name v) k) (State g w f t) Q.
Proof. done. Qed.

Lemma after_assign_last name v g w f t (Q : result unit -> state' -> Prop) :
  Q (Ok tt) (State (<[name := v]> g) w f t) ->
  after (assign name v) (State g w f t) Q.
Proof. done. Qed.

Lemma after_read {B} name v (k : value -> M' B) g w f t Q :
  g !! name = Some v ->
  after (k v) (State g w f t) Q ->
  after (bind (read name) k) (State g w f t) Q.
Proof. intros H. unfold after, bind, read. simpl. by rewrite H. Qed.

Lemma after_print {B} text target stats (k : unit -> M' B) g w f t Q :
  after (k tt) (State g w f (t ++ [Print text target stats])) Q ->
  after (bind (print text target stats) k) (State g w f t) Q.
Proof. done. Qed.

Lemma plot_pie_run y g w f t :
  plot_pie y (State g w f t)
  = (Ok tt, State g w (f ++ [Figure (Some (pie_of y)) (Some "equal")])
              (t ++ [Subplots (length f); DrawPie (length f) (pie_of y);
                     Axis (length f) "equal"])).
Proof.
  unfold plot_pie, bind, plt_subplots, ax_pie, ax_axis, log, set_figures. simpl.
  rewrite <- !app_assoc. simpl. do 2 f_equal.
  rewrite !alter_app_r_alt by (rewrite ?length_app; lia).
  by rewrite Nat.sub_diag.
Qed.

Lemma after_plot_pie {B} y (k : unit -> M' B) g w f t Q :
  after (k tt)
    (State g w (f ++ [Figure (Some (pie_of y)) (Some "equal")])
       (t ++ [Subplots (length f); DrawPie (length f) (pie_of y);
              Axis (length f) "equal"])) Q ->
  after (bind (plot_pie y) k) (State g w f t) Q.
Proof. unfold after, bind. by rewrite plot_pie_run. Qed.

Lemma after_plot_pie_last y g w f t (Q : result unit -> state' -> Prop) :
  Q (Ok tt)
    (State g w (f ++ [Figure (Some (pie_of y)) (Some "equal")])
       (t ++ [Subplots (length f); DrawPie (length f) (pie_of y);
              Axis (length f) "equal"])) ->
  after (plot_pie y) (State g w f t) Q.
Proof. unfold after. by rewrite plot_pie_run. Qed.

Lemma after_plt_show g w f t (Q : result unit -> state' -> Prop) :
  Q (Ok tt) (State g w f (t ++ [Show f])) -> after plt_show (State g w f t) Q.
Proof. done. Qed.

Section Calls.
Variable make_imbalance :
  World -> list Row -> list Z -> sampling_target -> result (list Row * list Z) * World.
Variable fit_sample :
  World -> sampler -> sampling_target -> list Row -> list Z ->
  result (list Row * list Z) * World.

Lemma after_make_imbalance {B} X y tg (k : list Row * list Z -> M' B) g w f t Q :
  (forall X' y' w', make_imbalance w X y tg = (Ok (X', y'), w') ->
     after (k (X', y'))
       (State g w' f (t ++ [Call MakeImbalance tg X y (Ok (X', y'))])) Q) ->
  (forall e w', make_imbalance w X y tg = (Raise e, w') ->
     Q (Raise e) (State g w' f (t ++ [Call MakeImbalance tg X y (Raise e)]))) ->
  after (bind (call_make_imbalance make_imbalance X y tg) k) (State g w f t) Q.
Proof.
  intros HOk HRaise. unfold after, bind, call_make_imbalance. simpl.
  destruct (make_imbalance w X y tg) as [[[X' y']|e] w'] eqn:E.
  - by apply HOk.
  - by apply HRaise.
Qed.

Lemma after_fit_sample {B} s X y tg (k : list Row * list Z -> M' B) g w f t Q :
  (forall X' y' w', fit_sample w s tg X y = (Ok (X', y'), w') ->
     after (k (X', y'))
       (State g w' f (t ++ [Call (FitSample s) tg X y (Ok (X', y'))])) Q) ->
  (forall e w', fit_sample w s tg X y = (Raise e, w') ->
     Q (Raise e) (State g w' f (t ++ [Call (FitSample s) tg X y (Raise e)]))) ->
  after (bind (call_fit_sample fit_sample s tg X y) k) (State g w f t) Q.
Proof.
  intros HOk HRaise. unfold after, bind, call_fit_sample. simpl.
  destruct (fit_sample w s tg X y) as [[[X' y']|e] w'] eqn:E.
  - by apply HOk.
  - by apply HRaise.
Qed.

End Calls.
End Steps.

(** One step of the run: the rule of the statement at the head. *)
Ltac lookup_global :=
  repeat (rewrite lookup_insert_ne by (intros ?; discriminate));
  apply lookup_insert_eq.

Ltac tidy := cbv beta iota delta [fst snd]; cbn [app length].

Ltac unfold_head m :=
  lazymatch m with
  | block_dict _ _ _ => unfold block_dict
  | block_callable _ => unfold block_callable
  | block_float _ => unfold block_float
  | block_str _ => unfold block_str
  | block_dict_samplers _ => unfold block_dict_samplers
  | block_list _ => unfold block_list
  | block_callable_sampler _ => unfold block_callable_sampler
  | read_dataset _ => unfold read_dataset at 1
  | read_target _ => unfold read_target at 1
  | read_function _ => unfold read_function at 1
  | read_matrix _ => unfold read_matrix at 1
  | read_vector _ => unfold read_vector at 1
  | read_mask _ => unfold read_mask at 1
  | read_sampler _ => unfold read_sampler at 1
  | print_target_and _ _ => unfold print_target_and at 1
  | plot_pie_of _ => unfold plot_pie_of at 1
  | construct _ _ => unfold construct at 1
  | fit_sample_with _ _ _ _ => unfold fit_sample_with at 1
  | assign_X_y _ => unfold assign_X_y at 1
  | assign_res _ => unfold assign_res at 1
  end.

Ltac step :=
  lazymatch goal with
  | |- after (bind ?m ?k) ?st ?Q =>
      lazymatch m with
      | bind _ _ => apply after_bind_bind
      | ret _ => apply after_ret
      | raise _ => apply after_raise
      | assign _ _ => apply after_assign
      | read _ => eapply after_read; [lookup_global|]
      | print _ _ _ => apply after_print
      | plot_pie _ => apply after_plot_pie
      | lift (np_bitwise_or (np_eq ?y ?a) (np_eq ?y ?b)) =>
          rewrite (np_bitwise_or_eq y a b); apply after_lift
      | lift (Ok _) => apply after_lift
      | _ => unfold_head m
      end
  | |- after ?m ?st ?Q =>
      lazymatch m with
      | plt_show => apply after_plt_show
      | plot_pie _ => apply after_plot_pie_last
      | assign _ _ => apply after_assign_last
      | _ => unfold_head m
      end
  end; tidy.

(* ===================================================================== *)
(** * The loop over the items of a dictionary *)
(* ===================================================================== *)

Section Loop.
Context {V : Type}.
Variable R : Z -> V -> V -> Prop.
Variable body : Z -> V -> dict V -> result (dict V).

(** A body that rewrites the value of the key it is given, and nothing
    else, maps the dictionary item by item. *)
Lemma items_loop_rel (rest done : dict V) :
  NoDup (keys (done ++ rest)) ->
  (forall k v, (k, v) ∈ rest ->
     exists v', R k v v' /\
       forall pre post, k ∉ keys pre ->
         body k v (pre ++ (k, v) :: post) = Ok (pre ++ (k, v') :: post)) ->
  exists rest',
    items_loop body (length rest) (length done) (done ++ rest) = Ok (done ++ rest')
    /\ Forall2 (fun a b => a.1 = b.1 /\ R a.1 a.2 b.2) rest rest'.
Proof.
  revert done. induction rest as [|[k v] rest IH]; intros done Hnd Hbody.
  - exists []. split; [reflexivity | constructor].
  - destruct (Hbody k v) as (v' & HR & Hrun); [apply list_elem_of_here|].
    assert (Hk : k ∉ keys done).
    { unfold keys in *. rewrite map_app in Hnd.
      apply NoDup_app in Hnd as (_ & Hdisj & _).
      intros Hin. apply (Hdisj k Hin). simpl. apply list_elem_of_here. }
    simpl items_loop.
    rewrite nth_error_app2, Nat.sub_diag by lia. simpl.
    rewrite (Hrun done rest Hk). simpl.
    replace (length (done ++ (k, v') :: rest)) with (length (done ++ (k, v) :: rest))
      by (rewrite !length_app; reflexivity).
    rewrite Nat.eqb_refl.
    destruct (IH (done ++ [(k, v')])) as (rest' & Hloop & Hall).
    + unfold keys in *. rewrite <- app_assoc. simpl.
      rewrite map_app in *. exact Hnd.
    + intros k0 v0 Hin. apply Hbody. by apply list_elem_of_further.
    + exists ((k, v') :: rest'). split.
      * rewrite length_app in Hloop. simpl in Hloop.
        rewrite Nat.add_1_r, <- !app_assoc in Hloop. exact Hloop.
      * constructor; [by split | exact Hall].
Qed.

Lemma for_items_rel (d : dict V) :
  NoDup (keys d) ->
  (forall k v, (k, v) ∈ d ->
     exists v', R k v v' /\
       forall pre post, k ∉ keys pre ->
         body k v (pre ++ (k, v) :: post) = Ok (pre ++ (k, v') :: post)) ->
  exists d',
    for_items d body = Ok d'
    /\ Forall2 (fun a b => a.1 = b.1 /\ R a.1 a.2 b.2) d d'.
Proof. intros Hnd Hbody. exact (items_loop_rel d [] Hnd Hbody). Qed.

End Loop.

Lemma Forall2_keys {V} (P : Z * V -> Z * V -> Prop) (d d' : dict V) :
  Forall2 (fun a b => a.1 = b.1 /\ P a b) d d' -> keys d' = keys d.
Proof.
  induction 1 as [|a b d d' [Hk _] _ IH]; simpl; [done|]. by rewrite Hk, IH.
Qed.

Section RatioMultiplier.
Local Open Scope Z_scope.

Lemma scaled_multiplier (c M : Z) :
  0 <= c <= sys_maxsize -> 0 <= M ->
  M * (2 ^ 53 + 1) * (2 ^ 53 + 1) <= 2 ^ 53 * 2 ^ 53 * 2 ^ 53 ->
  exists v, scaled c (Finite M (-53)) = Ok v
            /\ floor_times (Finite M (-53)) c v /\ 0 <= v <= c.
Proof.
  intros Hc HM Hbound.
  destruct (scaled_below c M) as (p & z & Hp & Hz & Hfl & Hle); [done..|].
  exists z. unfold scaled. rewrite Hp. simpl. split; [done|].
  split; [by exists p | done].
Qed.

(** What the second [ratio_multiplier] returns, item by item. *)
Lemma ratio_multiplier_items (y : list Z) :
  Z.of_nat (length y) <= sys_maxsize ->
  exists d,
    Line225.ratio_multiplier y = Ok d
    /\ Forall2 (fun a b => a.1 = b.1
                           /\ (described_target a.1 a.2 b.2 /\ 0 <= b.2 <= a.2))
         (Counter y) d.
Proof.
  intros Hlen. unfold Line225.ratio_multiplier.
  apply (for_items_rel (fun k c v => described_target k c v /\ 0 <= v <= c));
    [apply NoDup_keys_Counter|].
  intros k c [Hc Hpos]%Counter_item.
  assert (Hrange : 0 <= c <= sys_maxsize).
  { pose proof (count_occ_le_length y k). lia. }
  destruct (Z.eq_dec k 1) as [->|Hk1]; [|destruct (Z.eq_dec k 2) as [->|Hk2]].
  - destruct (scaled_multiplier c 6305039478318694 Hrange) as (v & Hv & Hfl & Hle);
      [lia | vm_compute; discriminate |].
    exists v. split; [by split|]. intros pre post Hpre.
    change (dict_contains Line225.multiplier 1) with true.
    change (dict_getitem Line225.multiplier 1) with (Ok f0_7).
    cbn [rbind]. unfold f0_7. rewrite Hv. cbn [rbind]. by rewrite dict_set_at.
  - destruct (scaled_multiplier c 8556839292003942 Hrange) as (v & Hv & Hfl & Hle);
      [lia | vm_compute; discriminate |].
    exists v. split; [by split|]. intros pre post Hpre.
    change (dict_contains Line225.multiplier 2) with true.
    change (dict_getitem Line225.multiplier 2) with (Ok f0_95).
    cbn [rbind]. unfold f0_95. rewrite Hv. cbn [rbind]. by rewrite dict_set_at.
  - exists c. split.
    + split; [|lia]. unfold described_target.
      destruct k as [|[[p|p|]|[p|p|]|]|p]; first [reflexivity | lia].
    + intros pre post Hpre. unfold dict_contains, Line225.multiplier.
      cbn [dict_get]. destruct (Z.eqb_spec 1 k); [lia|].
      destruct (Z.eqb_spec 2 k); [lia|]. reflexivity.
Qed.

End RatioMultiplier.

(* ===================================================================== *)
(** * The class-distribution summary *)
(* ===================================================================== *)

(** C1.  For every label vector [y], the per-class counts of [Counter(y)]
    add up to the length of [y]: [sum(Counter(y).values()) == len(y)].
    This holds of every vector the script summarises, the original labels
    and each resampled [y_res] alike. *)
Theorem counter_counts_sum_to_length (y : list Z) :
  sum_values (Counter y) = Z.of_nat (length y).
Proof. unfold Counter. rewrite sum_values_tally. reflexivity. Qed.

Lemma distinct_labels (y : list Z) :
  length (Counter y) = size (list_to_set y : gset Z).
Proof.
  rewrite <- (length_map fst). change (map fst (Counter y)) with (keys (Counter y)).
  rewrite <- (size_list_to_set (C := gset Z)) by apply NoDup_keys_Counter.
  f_equal. apply set_eq. intros k. rewrite !elem_of_list_to_set.
  apply keys_Counter.
Qed.

Section PlotPie.
Context {Row World : Type}.

(** C10.  [plot_pie] hands [ax.pie] three sequences of one length, the
    number of distinct labels in [y]: the labels, their counts in [y]
    position by position, and an [explode] made of 0.1 only.  (Nothing in
    this needs [y] to be non-empty.) *)
Theorem plot_pie_arguments_consistent (y : list Z) :
  let p := pie_of y in
  let n := size (list_to_set y : gset Z) in
  (forall st : @state Row World,
     exists h before after,
       trace (plot_pie y st).2 = before ++ DrawPie h p :: after)
  /\ length (pie_labels p) = n
  /\ length (pie_sizes p) = n
  /\ length (pie_explode p) = n
  /\ (forall i l, pie_labels p !! i = Some l ->
        pie_sizes p !! i = Some (Z.of_nat (count_occ Z.eq_dec y l)))
  /\ Forall (fun x => x = f0_1) (pie_explode p).
Proof.
  intros p n. subst p n.
  split; [|unfold pie_of; cbn [pie_labels pie_sizes pie_explode];
           split; [|split; [|split; [|split]]]].
  - intros [g w f t]. rewrite plot_pie_run. simpl.
    exists (length f), (t ++ [Subplots (length f)]), [Axis (length f) "equal"].
    by rewrite <- app_assoc.
  - unfold keys. rewrite length_map. apply distinct_labels.
  - unfold values. rewrite length_map. apply distinct_labels.
  - rewrite repeat_length. apply distinct_labels.
  - intros i l Hl. unfold keys, values in *.
    change (map fst (Counter y)) with (fst <$> Counter y) in Hl.
    change (map snd (Counter y)) with (snd <$> Counter y).
    rewrite list_lookup_fmap in *.
    destruct (_ !! i) as [[k v]|] eqn:Hi; simpl in *; [|done].
    injection Hl as ->. apply list_elem_of_lookup_2, Counter_item in Hi.
    by destruct Hi as [-> _].
  - apply Forall_forall. intros x Hx. apply list_elem_of_In in Hx.
    by apply repeat_spec in Hx.
Qed.

End PlotPie.

(* ===================================================================== *)
(** * The second [ratio_multiplier] *)
(* ===================================================================== *)

Lemma Forall2_dict_get {V} (P : Z -> V -> V -> Prop) (d d' : dict V) k v :
  Forall2 (fun a b => a.1 = b.1 /\ P a.1 a.2 b.2) d d' ->
  dict_get d' k = Some v ->
  exists c, dict_get d k = Some c /\ P k c v.
Proof.
  induction 1 as [|[k1 c1] [k2 v2] d d' [Hk HP] _ IH]; simpl in *; [done|].
  subst k2. destruct (Z.eqb_spec k1 k) as [->|Hne].
  - intros [= ->]. by exists c1.
  - exact IH.
Qed.

(** C9.  For every label vector [y] (of a length a Python sequence can
    have), the mapping returned by the [ratio_multiplier] in effect at the
    under-sampling call has the classes of [Counter(y)], and gives no class
    more than its count there, nor less than zero. *)
Theorem ratio_multiplier_within_counts (y : list Z) :
  (Z.of_nat (length y) <= sys_maxsize)%Z ->
  exists d,
    Script.Line225.ratio_multiplier y = Ok d
    /\ keys d = keys (Counter y)
    /\ forall k v, dict_get d k = Some v ->
         exists c, dict_get (Counter y) k = Some c /\ (0 <= v <= c)%Z.
Proof.
  intros Hlen. destruct (ratio_multiplier_items y Hlen) as (d & Hd & Hall).
  exists d. split; [exact Hd|]. split.
  - exact (Forall2_keys
             (fun a b => described_target a.1 a.2 b.2 /\ (0 <= b.2 <= a.2)%Z)
             _ _ Hall).
  - intros k v Hv.
    destruct (Forall2_dict_get
                (fun k c v => described_target k c v /\ (0 <= v <= c)%Z)
                _ _ k v Hall Hv) as (c & Hc & _ & Hle).
    by exists c.
Qed.

Lemma ratio_multiplier_within_counts_witness :
  (Z.of_nat (length [0; 1; 1; 2; 2; 2; 1]%Z) <= sys_maxsize)%Z
  /\ exists d,
       Script.Line225.ratio_multiplier [0; 1; 1; 2; 2; 2; 1]%Z = Ok d
       /\ keys d = keys (Counter [0; 1; 1; 2; 2; 2; 1]%Z)
       /\ forall k v, dict_get d k = Some v ->
            exists c, dict_get (Counter [0; 1; 1; 2; 2; 2; 1]%Z) k = Some c
                      /\ (0 <= v <= c)%Z.
Proof.
  split; [vm_compute; discriminate|].
  apply (ratio_multiplier_within_counts [0; 1; 1; 2; 2; 2; 1]%Z).
  vm_compute; discriminate.
Defined.

(* ===================================================================== *)
(** * Runs of the script *)
(* ===================================================================== *)

Section Logs.
Context {Row : Type}.
Implicit Types (tr before rest : list (@event Row)).

Lemma scan_before P before tr :
  scan P before tr ->
  forall b ev rest, tr = b ++ ev :: rest -> P (before ++ b) ev rest.
Proof.
  revert before. induction tr as [|e tr IH]; intros before Hscan b ev rest Heq.
  - by destruct b.
  - destruct Hscan as [Hhere Hrest]. destruct b as [|e' b]; simpl in Heq.
    + injection Heq as H1 H2. subst. by rewrite app_nil_r.
    + injection Heq as H1 H2. subst.
      replace (before ++ e' :: b) with ((before ++ [e']) ++ b)
        by (by rewrite <- app_assoc).
      by apply IH.
Qed.

Lemma scan_everywhere P tr : scan P [] tr -> everywhere P tr.
Proof. intros H before ev rest Heq. exact (scan_before P [] tr H _ _ _ Heq). Qed.



End Logs.

(** A library call at the head of the run: either it answers and the run
    goes on, or it raises and the run is over. *)
Ltac call :=
  lazymatch goal with
  | |- after (bind (call_make_imbalance _ _ _ _) _) _ _ =>
      apply after_make_imbalance
  | |- after (bind (call_fit_sample _ _ _ _ _) _) _ _ =>
      apply after_fit_sample
  end;
  [intros ?X ?y ?w ?E; tidy | intros ?e ?w ?E; cbn [app length]].

(** The masking of lines 106-107: the mask comes from [y], so it fits [y];
    it fits [X] exactly when the library returned aligned data. *)
Ltac mask :=
  lazymatch goal with
  | |- after (bind (lift (np_mask ?a (zip_with orb (np_eq ?y _) (np_eq ?y _)))) _) _ _ =>
      first
        [ rewrite (np_mask_aligned a)
            by (rewrite length_mask; first [reflexivity | assumption])
        | destruct (decide (length a = length y)) as [?Hal|?Hmis];
          [ rewrite (np_mask_aligned a) by (rewrite length_mask; assumption)
          | rewrite (np_mask_misaligned a) by (rewrite length_mask; assumption) ] ];
      apply after_lift; tidy
  end.

Ltac run_script_with learn :=
  unfold script, initial; repeat first [step | call; learn | mask];
  cbv beta; cbn [trace figures globals world app length].

Ltac run_script := run_script_with idtac.

(** Reading a log event by event. *)
Ltac conjuncts :=
  repeat match goal with
         | |- _ /\ _ => split
         | |- True => exact I
         end.

Ltac scan_log := apply scan_everywhere; cbn [scan app]; conjuncts.


Section Runs.
Context {Row World : Type}.
Variable iris_data : list Row.
Variable iris_target : list Z.
Variable make_imbalance :
  World -> list Row -> list Z -> sampling_target -> result (list Row * list Z) * World.
Variable fit_sample :
  World -> sampler -> sampling_target -> list Row -> list Z ->
  result (list Row * list Z) * World.

Abbreviation the_script := (script iris_data iris_target make_imbalance fit_sample).



(** C5.  With a library that keeps labels and rows aligned, every call
    the script makes is given aligned data and returns aligned data, also
    the two-class subset cut out by the mask of lines 105-107; and this
    is all the script needs from the data: it then raises nothing of its
    own, so that a run that ends in an error ends in the error of its last
    library call. *)
Theorem labels_and_rows_stay_aligned (w : World) :
  keeps_alignment make_imbalance fit_sample ->
  length iris_data = length iris_target ->
  after the_script (initial w) (fun r st =>
    Forall aligned_call (trace st)
    /\ forall e, r = Raise e ->
         exists c t X y, last (trace st) = Some (Call c t X y (Raise e))).
Proof.
  intros [Hmi Hfs] Hiris.
  run_script_with ltac:(
    try match goal with
        | E : make_imbalance _ _ _ _ = (Ok (?X', ?y'), _) |- _ =>
            lazymatch goal with
            | _ : length X' = length y' |- _ => fail
            | _ => assert (length X' = length y')
                     by (eapply Hmi; [|exact E]; assumption)
            end
        | E : fit_sample _ _ _ _ _ = (Ok (?X', ?y'), _) |- _ =>
            lazymatch goal with
            | _ : length X' = length y' |- _ => fail
            | _ => assert (length X' = length y')
                     by (eapply Hfs; [|exact E];
                         first [assumption | apply length_select; assumption])
            end
        end);
  (split;
   [ repeat match goal with
            | |- Forall _ (_ :: _) => constructor
            | |- Forall _ [] => constructor
            end;
     cbn [aligned_call]; auto using length_select
   | intros e' He'; first [discriminate He' | injection He' as <-];
     by eexists _, _, _, _ ]).
Qed.

(** C6.  The summary is for display only.  [plot_pie] and [print] succeed
    and change neither the global names (so neither [y] nor the feature
    matrix) nor the state of the library: [plot_pie] adds one figure, made
    from its argument alone, and both add to the log.  The statements of
    the script that summarise a global name, [print_target_and] and
    [plot_pie_of], leave the globals and the library state as they are
    as well.  And in a run the summary printed and drawn right after a
    transformation is that of the labels it returned. *)
Theorem summary_is_display_only (w : World) :
  (forall y (st : @state Row World),
     plot_pie y st
     = (Ok tt,
        State (globals st) (world st)
          (figures st ++ [Figure (Some (pie_of y)) (Some "equal")])
          (trace st ++ [Subplots (length (figures st));
                        DrawPie (length (figures st)) (pie_of y);
                        Axis (length (figures st)) "equal"])))
  /\ (forall text target stats (st : @state Row World),
        print text target stats st
        = (Ok tt,
           State (globals st) (world st) (figures st)
             (trace st ++ [Print text target stats])))
  /\ (forall name text (st : @state Row World),
        globals (print_target_and name text st).2 = globals st
        /\ world (print_target_and name text st).2 = world st
        /\ figures (print_target_and name text st).2 = figures st)
  /\ (forall name (st : @state Row World),
        globals (plot_pie_of name st).2 = globals st
        /\ world (plot_pie_of name st).2 = world st)
  /\ after the_script (initial w) (fun r st => summaries_are_fresh (trace st)).
Proof.
  split; [|split; [|split; [|split]]].
  - intros y [g w' f t]. apply plot_pie_run.
  - reflexivity.
  - intros name text [g w' f t].
    unfold print_target_and, read_target, read_vector, read, bind, print, ret,
      raise. simpl.
    destruct (g !! "sampling_target") as [[]|]; simpl; try done;
      destruct (g !! name) as [[]|]; simpl; done.
  - intros name [g w' f t].
    unfold plot_pie_of, read_vector, read, bind, ret, raise. simpl.
    destruct (g !! name) as [[]|]; simpl; first [done | by rewrite plot_pie_run].
  - run_script; cbv beta; unfold summaries_are_fresh; scan_log;
      by eexists _, _, _, _.
Qed.


(** C8.  Nothing in the script catches an error: when a call into the
    library raises, the call is the last thing the run does and the run
    ends in that very error. *)
Theorem library_errors_propagate (w : World) :
  after the_script (initial w) (fun r st => errors_propagate r (trace st)).
Proof.
  run_script; cbv beta; unfold errors_propagate; scan_log; reflexivity.
Qed.

End Runs.

(* ===================================================================== *)
(** * The script on the iris labels *)
(* ===================================================================== *)

Lemma demo_resample_aligned t (X y X' y' : list Z) :
  length X = length y ->
  Demo.resample t X y = Ok (X', y') -> length X' = length y'.
Proof.
  intros Hal. unfold Demo.resample.
  destruct t as [d|x|s|l|f]; simpl;
    try (intros [= <- <-]; by rewrite ?length_map).
  destruct (f y) as [d|e]; simpl; [|done].
  intros [= <- <-]. by rewrite !length_map.
Qed.

Lemma demo_keeps_alignment :
  keeps_alignment Demo.make_imbalance Demo.fit_sample.
Proof.
  split.
  - intros w X y t X' y' w' Hal [= H _]. by eapply demo_resample_aligned.
  - intros w s t X y X' y' w' Hal [= H _]. by eapply demo_resample_aligned.
Qed.

(** The first and the second [ratio_multiplier] are different functions:
    on a vector of class 0 alone the first halves the count, the second
    leaves it. *)
Example ratio_multipliers_differ :
  Line75.ratio_multiplier [0; 0; 0; 0]%Z = Ok [(0, 2)]%Z
  /\ Line225.ratio_multiplier [0; 0; 0; 0]%Z = Ok [(0, 4)]%Z.
Proof. split; reflexivity. Qed.

(** The float product is not the exact one: 0.7 times 90 is a float just
    below 63. *)
Example scaled_90 : scaled 90 f0_7 = Ok 62%Z.
Proof. reflexivity. Qed.


Lemma labels_and_rows_stay_aligned_witness :
  keeps_alignment Demo.make_imbalance Demo.fit_sample
  /\ length Demo.iris_data = length Demo.iris_target
  /\ after (script Demo.iris_data Demo.iris_target
              Demo.make_imbalance Demo.fit_sample) (initial tt)
       (fun r st =>
          Forall aligned_call (trace st)
          /\ forall e, r = Raise e ->
               exists c t X y, last (trace st) = Some (Call c t X y (Raise e))).
Proof.
  split; [exact demo_keeps_alignment|]. split; [reflexivity|].
  apply (labels_and_rows_stay_aligned Demo.iris_data Demo.iris_target
           Demo.make_imbalance Demo.fit_sample tt).
  - exact demo_keeps_alignment.
  - reflexivity.
Defined.

(* ===================================================================== *)
(** * Further properties of the code *)
(* ===================================================================== *)

(** The float model against the Standard Library's specification of
    binary64, on the counts 0..299 and some large ones, times the
    literals of the script and some extreme floats. *)
Example binary64_products_agree :
  forallb (fun n =>
    forallb (agrees_with_spec n)
      [f0_1; f0_5; f0_7; f0_8; f0_95; Finite 1 (-1074); Finite 3 (-1074);
       Finite 1 (-1000); Finite (2 ^ 53 - 1) 970; Finite (-5) 3;
       Inf true; Inf false; NaN; Finite 0 0])
    (map Z.of_nat (seq 0 300)
     ++ [2 ^ 53; 2 ^ 53 + 1; 2 ^ 53 + 3; 2 ^ 54 + 2; 2 ^ 54 + 6;
         2 ^ 60 + 12345; 2 ^ 63 - 1; 2 ^ 100 - 1; 2 ^ 1024 - 2 ^ 970 - 1;
         2 ^ 1024 - 2 ^ 970; 2 ^ 1024; -7; - 2 ^ 53 - 1; 2 ^ 53 - 1])%Z
  = true.
Proof. vm_compute. reflexivity. Qed.


(* ===================================================================== *)
(** * More on [Counter] *)
(* ===================================================================== *)

Section MoreCounter.
Local Open Scope Z_scope.

Lemma Counter_get (y : list Z) (k : Z) :
  dict_get (Counter y) k
  = if Nat.eqb (count_occ Z.eq_dec y k) 0 then None
    else Some (Z.of_nat (count_occ Z.eq_dec y k)).
Proof.
  destruct (dict_get (Counter y) k) as [v|] eqn:Hg.
  - apply dict_get_Some_elem, Counter_item in Hg as [-> Hpos].
    destruct (Nat.eqb_spec (count_occ Z.eq_dec y k) 0); [lia|done].
  - apply dict_get_None in Hg. rewrite keys_Counter, list_elem_of_In in Hg.
    apply (count_occ_not_In Z.eq_dec) in Hg. by rewrite Hg.
Qed.

(** X1.  [Counter(y)] has an entry exactly for the labels that occur in
    [y], with the number of occurrences; a label that does not occur is
    absent (it is not stored with a count of zero). *)
Theorem counter_lookup (y : list Z) (k : Z) :
  dict_get (Counter y) k
  = if Nat.eqb (count_occ Z.eq_dec y k) 0 then None
    else Some (Z.of_nat (count_occ Z.eq_dec y k)).
Proof. apply Counter_get. Qed.

Lemma Counter_snoc (y : list Z) (x : Z) :
  Counter (y ++ [x]) = tally (Counter y) x.
Proof. unfold Counter. by rewrite fold_left_app. Qed.

(** X2.  The keys of [Counter(y)], and so the wedges of the pie, come in
    the order in which the labels first appear in [y]. *)
Theorem counter_keys_in_order_of_first_occurrence (y : list Z) :
  keys (Counter y) = rev (remove_dups (rev y)).
Proof.
  induction y as [|x y IH] using rev_ind; [reflexivity|].
  rewrite Counter_snoc. unfold tally. rewrite keys_set, rev_app_distr. simpl.
  unfold dict_contains.
  destruct (dict_get (Counter y) x) as [v|] eqn:Hg.
  - apply dict_get_Some_elem, (list_elem_of_fmap_2 fst) in Hg. simpl in Hg.
    apply (proj1 (keys_Counter y x)) in Hg.
    destruct (decide_rel elem_of x (rev y)) as [_|Hn]; [exact IH|].
    exfalso. apply Hn. rewrite list_elem_of_In, <- in_rev, <- list_elem_of_In. exact Hg.
  - apply dict_get_None in Hg. rewrite keys_Counter in Hg.
    destruct (decide_rel elem_of x (rev y)) as [Hin|_].
    + exfalso. apply Hg. rewrite list_elem_of_In, in_rev, <- list_elem_of_In. exact Hin.
    + simpl. by rewrite IH.
Qed.

(** X3.  The summary does not depend on the order of the samples: two
    label vectors that are permutations of each other have the same count
    for every class, the same number of classes and the same total. *)
Theorem counter_of_permutation (y y' : list Z) :
  Permutation y y' ->
  (forall k, dict_get (Counter y) k = dict_get (Counter y') k)
  /\ length (Counter y) = length (Counter y')
  /\ sum_values (Counter y) = sum_values (Counter y').
Proof.
  intros Hp. split; [|split].
  - intros k. rewrite !Counter_get.
    by rewrite (proj1 (Permutation_count_occ Z.eq_dec y y') Hp k).
  - rewrite !distinct_labels. f_equal. apply set_eq. intros k.
    rewrite !elem_of_list_to_set. by rewrite Hp.
  - unfold Counter. rewrite !sum_values_tally. f_equal. f_equal.
    by apply Permutation_length.
Qed.

Lemma counter_of_permutation_witness :
  Permutation [0; 1; 2; 1] (rev [0; 1; 2; 1])
  /\ (forall k, dict_get (Counter [0; 1; 2; 1]) k
                = dict_get (Counter (rev [0; 1; 2; 1])) k)
  /\ length (Counter [0; 1; 2; 1]) = length (Counter (rev [0; 1; 2; 1]))
  /\ sum_values (Counter [0; 1; 2; 1]) = sum_values (Counter (rev [0; 1; 2; 1])).
Proof.
  split; [apply Permutation_rev|].
  apply (counter_of_permutation [0; 1; 2; 1] (rev [0; 1; 2; 1])).
  apply Permutation_rev.
Defined.

End MoreCounter.

(* ===================================================================== *)
(** * The two-class subset of lines 105-107 *)
(* ===================================================================== *)

Section BinarySubset.
Local Open Scope Z_scope.

Lemma select_classes (y : list Z) a b :
  select y (zip_with orb (np_eq y a) (np_eq y b))
  = List.filter (fun c => (c =? a) || (c =? b)) y.
Proof.
  unfold np_eq. induction y as [|c y IH]; simpl; [done|].
  destruct ((c =? a) || (c =? b)); by rewrite IH.
Qed.

Lemma select_rows {A} (X : list A) (y : list Z) a b :
  length X = length y ->
  combine (select X (zip_with orb (np_eq y a) (np_eq y b)))
          (select y (zip_with orb (np_eq y a) (np_eq y b)))
  = List.filter (fun p => (p.2 =? a) || (p.2 =? b)) (combine X y).
Proof.
  unfold np_eq. revert X.
  induction y as [|c y IH]; intros [|x X] Hlen; simpl in *; try done.
  injection Hlen as Hlen. specialize (IH X Hlen).
  destruct ((c =? a) || (c =? b)); simpl; by rewrite IH.
Qed.

(** X4.  Lines 105-107 on aligned data: the mask and both selections
    succeed; [binary_y] is [y] without the labels other than 0 and 2, in
    the same order; [binary_X] holds the rows of exactly those samples;
    and the two stay aligned. *)
Theorem binary_subset_keeps_classes_0_and_2 {A} (X : list A) (y : list Z) :
  length X = length y ->
  exists mask binary_y binary_X,
    np_bitwise_or (np_eq y 0) (np_eq y 2) = Ok mask
    /\ np_mask y mask = Ok binary_y
    /\ np_mask X mask = Ok binary_X
    /\ binary_y = List.filter (fun c => (c =? 0) || (c =? 2)) y
    /\ combine binary_X binary_y
       = List.filter (fun p => (p.2 =? 0) || (p.2 =? 2)) (combine X y)
    /\ length binary_X = length binary_y.
Proof.
  intros Hlen.
  eexists (zip_with orb (np_eq y 0) (np_eq y 2)), _, _.
  split; [apply np_bitwise_or_eq|].
  split; [apply np_mask_aligned; by rewrite length_mask|].
  split; [apply np_mask_aligned; by rewrite length_mask|].
  split; [apply select_classes|].
  split; [by apply select_rows | by apply length_select].
Qed.

Lemma binary_subset_keeps_classes_0_and_2_witness :
  length [10; 11; 12; 13] = length [2; 1; 0; 2]
  /\ exists mask binary_y binary_X,
       np_bitwise_or (np_eq [2; 1; 0; 2] 0) (np_eq [2; 1; 0; 2] 2) = Ok mask
       /\ np_mask [2; 1; 0; 2] mask = Ok binary_y
       /\ np_mask [10; 11; 12; 13] mask = Ok binary_X
       /\ binary_y = List.filter (fun c => (c =? 0) || (c =? 2)) [2; 1; 0; 2]
       /\ combine binary_X binary_y
          = List.filter (fun p => (p.2 =? 0) || (p.2 =? 2))
              (combine [10; 11; 12; 13] [2; 1; 0; 2])
       /\ length binary_X = length binary_y.
Proof.
  split; [reflexivity|].
  apply (binary_subset_keeps_classes_0_and_2 [10; 11; 12; 13] [2; 1; 0; 2]).
  reflexivity.
Defined.

(** X5.  Lines 105-107 on misaligned data: the mask has the length of
    [y], so [y[binary_mask]] still succeeds but [X[binary_mask]] raises
    [IndexError]. *)
Theorem binary_subset_of_misaligned_data {A} (X : list A) (y : list Z) :
  length X <> length y ->
  exists mask binary_y,
    np_bitwise_or (np_eq y 0) (np_eq y 2) = Ok mask
    /\ np_mask y mask = Ok binary_y
    /\ np_mask X mask = Raise IndexError.
Proof.
  intros Hlen.
  eexists (zip_with orb (np_eq y 0) (np_eq y 2)), _.
  split; [apply np_bitwise_or_eq|].
  split; [apply np_mask_aligned; by rewrite length_mask|].
  apply np_mask_misaligned. by rewrite length_mask.
Qed.

Lemma binary_subset_of_misaligned_data_witness :
  length [10; 11; 12] <> length [2; 1; 0; 2]
  /\ exists mask binary_y,
       np_bitwise_or (np_eq [2; 1; 0; 2] 0) (np_eq [2; 1; 0; 2] 2) = Ok mask
       /\ np_mask [2; 1; 0; 2] mask = Ok binary_y
       /\ np_mask [10; 11; 12] mask = Raise IndexError.
Proof.
  split; [discriminate|].
  apply (binary_subset_of_misaligned_data [10; 11; 12] [2; 1; 0; 2]).
  discriminate.
Defined.

Lemma count_occ_filter (f : Z -> bool) (y : list Z) k :
  count_occ Z.eq_dec (List.filter f y) k
  = if f k then count_occ Z.eq_dec y k else 0%nat.
Proof.
  induction y as [|c y IH]; simpl; [by destruct (f k)|].
  destruct (f c) eqn:Hc; simpl; destruct (Z.eq_dec c k) as [->|Hne];
    rewrite IH; try rewrite Hc; done.
Qed.

(** X6.  The summary of the two-class subset: classes 0 and 2 have the
    counts they have in [y], and no other class is present. *)
Theorem counter_of_binary_subset (y : list Z) (k : Z) :
  dict_get (Counter (List.filter (fun c => (c =? 0) || (c =? 2)) y)) k
  = if (k =? 0) || (k =? 2) then dict_get (Counter y) k else None.
Proof.
  rewrite !Counter_get, count_occ_filter.
  by destruct ((k =? 0) || (k =? 2)).
Qed.

End BinarySubset.


(* ===================================================================== *)
(** * The first [ratio_multiplier] *)
(* ===================================================================== *)

Section LoopStops.
Context {V : Type}.
Variable body : Z -> V -> dict V -> result (dict V).

(** A loop whose body rewrites the items it meets in place and then raises
    at some key raises there. *)
Lemma items_loop_stop (rest1 rest2 done : dict V) k v e :
  NoDup (keys (done ++ rest1 ++ (k, v) :: rest2)) ->
  (forall k' v', (k', v') ∈ rest1 ->
     exists v'', forall pre post, k' ∉ keys pre ->
       body k' v' (pre ++ (k', v') :: post) = Ok (pre ++ (k', v'') :: post)) ->
  (forall d, body k v d = Raise e) ->
  items_loop body (length (rest1 ++ (k, v) :: rest2)) (length done)
    (done ++ rest1 ++ (k, v) :: rest2) = Raise e.
Proof.
  revert done. induction rest1 as [|[k1 v1] rest1 IH]; intros done Hnd Hok Hraise.
  - simpl. rewrite nth_error_app2, Nat.sub_diag by lia. simpl.
    by rewrite Hraise.
  - destruct (Hok k1 v1) as (v1' & Hrun); [apply list_elem_of_here|].
    assert (Hk : k1 ∉ keys done).
    { unfold keys in *. rewrite map_app in Hnd.
      apply NoDup_app in Hnd as (_ & Hdisj & _).
      intros Hin. apply (Hdisj k1 Hin). simpl. apply list_elem_of_here. }
    simpl. rewrite nth_error_app2, Nat.sub_diag by lia. simpl.
    rewrite (Hrun done _ Hk). simpl.
    replace (length (done ++ (k1, v1') :: rest1 ++ (k, v) :: rest2))
      with (length (done ++ (k1, v1) :: rest1 ++ (k, v) :: rest2))
      by (rewrite !length_app; reflexivity).
    rewrite Nat.eqb_refl.
    replace (S (length done)) with (length (done ++ [(k1, v1')]))
      by (rewrite length_app; simpl; lia).
    replace (done ++ (k1, v1') :: rest1 ++ (k, v) :: rest2)
      with ((done ++ [(k1, v1')]) ++ rest1 ++ (k, v) :: rest2)
      by (by rewrite <- app_assoc).
    apply IH.
    + unfold keys in *. rewrite <- app_assoc. simpl.
      rewrite !map_app in *. simpl in *. rewrite !map_app in *. exact Hnd.
    + intros k' v' Hin. apply Hok. by apply list_elem_of_further.
    + exact Hraise.
Qed.

End LoopStops.

Section DictAppend.
Context {V : Type}.
Implicit Types (d : dict V) (k : Z) (v : V).

Lemma dict_get_app_l d d' k :
  k ∈ keys d -> dict_get (d ++ d') k = dict_get d k.
Proof.
  induction d as [|[k0 v0] d IH]; simpl.
  - intros H. by apply elem_of_nil in H.
  - intros [->|Hin]%elem_of_cons.
    + by rewrite Z.eqb_refl.
    + destruct (Z.eqb_spec k0 k); [done | by apply IH].
Qed.

Lemma dict_get_app_r d d' k :
  k ∉ keys d -> dict_get (d ++ d') k = dict_get d' k.
Proof.
  induction d as [|[k0 v0] d IH]; simpl; [done|].
  rewrite not_elem_of_cons. intros [Hne Hd].
  destruct (Z.eqb_spec k0 k); [done | by apply IH].
Qed.

Lemma dict_set_app_l d d' k v :
  k ∈ keys d -> dict_set (d ++ d') k v = dict_set d k v ++ d'.
Proof.
  induction d as [|[k0 v0] d IH]; simpl.
  - intros H. by apply elem_of_nil in H.
  - intros [->|Hin]%elem_of_cons.
    + by rewrite Z.eqb_refl.
    + destruct (Z.eqb_spec k0 k); [done|]. simpl. by rewrite IH.
Qed.

Lemma dict_set_app_r d d' k v :
  k ∉ keys d -> dict_set (d ++ d') k v = d ++ dict_set d' k v.
Proof.
  induction d as [|[k0 v0] d IH]; simpl; [done|].
  rewrite not_elem_of_cons. intros [Hne Hd].
  destruct (Z.eqb_spec k0 k); [done|]. by rewrite IH.
Qed.

End DictAppend.

Section FirstRatioMultiplier.
Local Open Scope Z_scope.

(** Counting further elements leaves a key that is already there where it
    is, after the same keys. *)
Lemma tally_keeps_place (d1 d2 : dict Z) k c x :
  k ∉ keys d1 ->
  exists d1' c' d2',
    tally (d1 ++ (k, c) :: d2) x = d1' ++ (k, c') :: d2' /\ keys d1' = keys d1.
Proof.
  intros Hk. unfold tally.
  destruct (decide (x ∈ keys d1)) as [Hin|Hout].
  - rewrite dict_set_app_l by done. eexists _, c, d2. split; [reflexivity|].
    rewrite keys_set. unfold dict_contains.
    destruct (dict_get d1 x) eqn:Hg; [done|]. by apply dict_get_None in Hg.
  - rewrite dict_set_app_r by done. simpl.
    destruct (Z.eqb_spec k x) as [->|Hne]; by eexists d1, _, _.
Qed.

Lemma tally_all_keeps_place (ys : list Z) (d1 d2 : dict Z) k c :
  k ∉ keys d1 ->
  exists d1' c' d2',
    fold_left tally ys (d1 ++ (k, c) :: d2) = d1' ++ (k, c') :: d2'
    /\ keys d1' = keys d1.
Proof.
  revert d1 d2 c. induction ys as [|x ys IH]; intros d1 d2 c Hk; simpl.
  - by exists d1, c, d2.
  - destruct (tally_keeps_place d1 d2 k c x Hk) as (d1' & c' & d2' & -> & Hkeys).
    destruct (IH d1' d2' c') as (d1'' & c'' & d2'' & -> & Hkeys');
      [by rewrite Hkeys|].
    exists d1'', c'', d2''. split; [done | congruence].
Qed.

(** Where a label that is new at its first occurrence sits in the
    summary: after the labels seen before it. *)
Lemma Counter_split (before rest : list Z) k :
  k ∉ before ->
  exists d1 c d2,
    Counter (before ++ k :: rest) = d1 ++ (k, c) :: d2
    /\ keys d1 = keys (Counter before).
Proof.
  intros Hk. unfold Counter at 1. rewrite fold_left_app. simpl.
  fold (Counter before).
  assert (Hnew : k ∉ keys (Counter before)) by (by rewrite keys_Counter).
  unfold tally at 2. replace (dict_set (Counter before) k _)
    with (Counter before ++ [(k, 1)]).
  - by apply tally_all_keeps_place.
  - apply dict_get_None in Hnew as Hg. rewrite Hg. simpl.
    rewrite <- (app_nil_r (Counter before)) at 2.
    by rewrite dict_set_app_r.
Qed.

(** The body of the loop of lines 78-79 on a class that has a multiplier. *)
Lemma first_body_scales (k c : Z) :
  iris_class k -> 0 <= c <= sys_maxsize ->
  exists v,
    (match k with
     | 0 => floor_times f0_5 c v
     | 1 => floor_times f0_7 c v
     | 2 => floor_times f0_95 c v
     | _ => False
     end /\ 0 <= v <= c)
    /\ forall pre post, k ∉ keys pre ->
         rbind (dict_getitem Line75.multiplier k) (fun m =>
           rbind (scaled c m) (fun v =>
             Ok (dict_set (pre ++ (k, c) :: post) k v)))
         = Ok (pre ++ (k, v) :: post).
Proof.
  intros [-> | [-> | ->]] Hc.
  - destruct (scaled_multiplier c 4503599627370496 Hc) as (v & Hv & Hfl & Hle);
      [lia | vm_compute; discriminate |].
    exists v. split; [by split|]. intros pre post Hpre.
    change (dict_getitem Line75.multiplier 0) with (Ok f0_5).
    cbn [rbind]. unfold f0_5. rewrite Hv. cbn [rbind]. by rewrite dict_set_at.
  - destruct (scaled_multiplier c 6305039478318694 Hc) as (v & Hv & Hfl & Hle);
      [lia | vm_compute; discriminate |].
    exists v. split; [by split|]. intros pre post Hpre.
    change (dict_getitem Line75.multiplier 1) with (Ok f0_7).
    cbn [rbind]. unfold f0_7. rewrite Hv. cbn [rbind]. by rewrite dict_set_at.
  - destruct (scaled_multiplier c 8556839292003942 Hc) as (v & Hv & Hfl & Hle);
      [lia | vm_compute; discriminate |].
    exists v. split; [by split|]. intros pre post Hpre.
    change (dict_getitem Line75.multiplier 2) with (Ok f0_95).
    cbn [rbind]. unfold f0_95. rewrite Hv. cbn [rbind]. by rewrite dict_set_at.
Qed.

Lemma Counter_value_range (y : list Z) k c :
  Z.of_nat (length y) <= sys_maxsize ->
  (k, c) ∈ Counter y -> 0 <= c <= sys_maxsize.
Proof.
  intros Hlen [-> Hpos]%Counter_item.
  pose proof (count_occ_le_length y k). lia.
Qed.

(** X8.  The first [ratio_multiplier] looks every class up in its
    multiplier table without a guard: when [y] holds a label other than
    0, 1 and 2, it raises [KeyError] for the first such label. *)
Theorem first_ratio_multiplier_key_error (before rest : list Z) (k : Z) :
  Z.of_nat (length (before ++ k :: rest)) <= sys_maxsize ->
  Forall iris_class before ->
  ~ iris_class k ->
  Line75.ratio_multiplier (before ++ k :: rest) = Raise (KeyError k).
Proof.
  intros Hlen Hbefore Hk.
  assert (Hnew : k ∉ before).
  { intros Hin. rewrite Forall_forall in Hbefore. by apply Hk, Hbefore. }
  destruct (Counter_split before rest k Hnew) as (d1 & c & d2 & Hsplit & Hkeys).
  unfold Line75.ratio_multiplier, for_items. rewrite Hsplit.
  apply (items_loop_stop _ d1 d2 []).
  - simpl. rewrite <- Hsplit. apply NoDup_keys_Counter.
  - intros k' v' Hin.
    destruct (first_body_scales k' v') as (v'' & _ & Hrun).
    + apply (list_elem_of_fmap_2 fst) in Hin. simpl in Hin.
      change (fst <$> d1) with (keys d1) in Hin. rewrite Hkeys in Hin.
      apply (proj1 (keys_Counter before k')) in Hin.
      rewrite Forall_forall in Hbefore. by apply Hbefore.
    + apply (Counter_value_range (before ++ k :: rest) k'); [done|].
      rewrite Hsplit. apply elem_of_app. by left.
    + by exists v''.
  - intros d. unfold dict_getitem, Line75.multiplier. cbn [dict_get].
    unfold iris_class in Hk.
    destruct (Z.eqb_spec 0 k); [lia|]. destruct (Z.eqb_spec 1 k); [lia|].
    destruct (Z.eqb_spec 2 k); [lia|]. reflexivity.
Qed.

Lemma first_ratio_multiplier_key_error_witness :
  Z.of_nat (length ([0; 1; 0] ++ 3 :: [2; 7])) <= sys_maxsize
  /\ Forall iris_class [0; 1; 0]
  /\ ~ iris_class 3
  /\ Line75.ratio_multiplier ([0; 1; 0] ++ 3 :: [2; 7]) = Raise (KeyError 3).
Proof.
  assert (H : Forall iris_class [0; 1; 0]).
  { repeat constructor; unfold iris_class; lia. }
  assert (H3 : ~ iris_class 3) by (unfold iris_class; lia).
  split; [vm_compute; discriminate|]. split; [exact H|]. split; [exact H3|].
  apply (first_ratio_multiplier_key_error [0; 1; 0] [2; 7] 3);
    [vm_compute; discriminate | exact H | exact H3].
Defined.

End FirstRatioMultiplier.


(* ===================================================================== *)
(** * How far [int(value * multiplier)] is from the exact product *)
(* ===================================================================== *)

Section Accuracy.
Local Open Scope Z_scope.

(** Rounding a non-negative value moves it by a factor between
    [1 - 2^-52] and [1 + 2^-53]. *)
Lemma round_nonneg_near m e :
  0 <= m -> emin <= e -> digits m + e < emax ->
  exists q s,
    round m e = Finite q (e + s) /\ 0 <= s <= Z.max 0 (digits m - 53)
    /\ 0 <= q
    /\ q * 2 ^ s * 2 ^ 53 <= m * (2 ^ 53 + 1)
    /\ m * (2 ^ 52 - 1) <= q * 2 ^ s * 2 ^ 52.
Proof.
  intros Hm He Hd. unfold round. rewrite (Z.abs_eq m) by done.
  pose proof (digits_nonneg m) as Hdm.
  assert (Hsgn : forall q, 0 <= q -> (m = 0 -> q = 0) -> Z.sgn m * q = q).
  { intros q Hq H0. destruct (Z.eq_dec m 0) as [->|Hne]; [rewrite H0; lia|].
    rewrite Z.sgn_pos by lia. lia. }
  unfold excess. destruct (Z.le_gt_cases (digits m) prec) as [Hsmall|Hbig].
  - replace (Z.max 0 (Z.max (digits m - prec) (emin - e))) with 0 by lia.
    simpl (0 =? 0). cbv iota.
    destruct (Z.ltb_spec emax (digits m + (e + 0))); [lia|].
    exists m, 0. rewrite Hsgn by done. repeat split; try lia.
  - replace (Z.max 0 (Z.max (digits m - prec) (emin - e)))
      with (digits m - prec) by lia.
    unfold prec in *. set (s := digits m - 53) in *.
    assert (Hs : 0 < s) by lia.
    destruct (Z.eqb_spec s 0); [lia|].
    assert (Hm0 : 0 < m).
    { destruct (Z.eq_dec m 0) as [->|]; [|lia]. unfold digits in Hbig. simpl in Hbig. lia. }
    destruct (round_shift_bound m s Hm Hs) as [[Hlo Hhi] Hhalf].
    set (q := round_shift m s) in *.
    assert (HP : 0 < 2 ^ s) by (apply Z.pow_pos_nonneg; lia).
    assert (Hup : m < 2 ^ s * 2 ^ 53).
    { rewrite <- Z.pow_add_r by lia. replace (s + 53) with (digits m) by lia.
      by apply digits_bound. }
    assert (Hdown : 2 ^ s * 2 ^ 52 <= m).
    { rewrite <- Z.pow_add_r by lia. replace (s + 52) with (digits m - 1) by lia.
      by apply digits_lower. }
    assert (Hq0 : 0 <= m / 2 ^ s) by (apply Z.div_pos; lia).
    assert (Hq53 : m / 2 ^ s < 2 ^ 53) by (apply Z.div_lt_upper_bound; lia).
    assert (Hdq : digits q <= 54) by (apply digits_le; lia).
    assert (Hrem : m < 2 ^ s * q + 2 ^ s).
    { pose proof (Z.mul_succ_div_gt m (2 ^ s) HP). nia. }
    destruct (Z.ltb_spec emax (digits q + (e + s))); [lia|].
    exists q, s. rewrite Hsgn by lia. repeat split; try lia.
Qed.

(** [int(c * m)] for a count below [2^53] and a multiplier [M * 2^-53]:
    the floor of a number [P * 2^-53] close to the exact product. *)
Lemma scaled_floor_form (c M : Z) :
  0 <= c < 2 ^ 52 -> 0 <= M < 2 ^ 53 ->
  exists P,
    scaled c (Finite M (-53)) = Ok (P / 2 ^ 53)
    /\ P * 2 ^ 53 <= c * M * (2 ^ 53 + 1)
    /\ c * M * (2 ^ 52 - 1) <= P * 2 ^ 52.
Proof.
  intros Hc HM.
  assert (Hdc : digits c <= 52) by (apply digits_le; lia).
  assert (HdM : digits M <= 53) by (apply digits_le; lia).
  pose proof (digits_nonneg c) as Hdc0.
  destruct (round_nonneg_near c 0) as (q1 & s1 & Hr1 & Hs1 & Hq1 & Hu1 & Hl1);
    [lia | unfold emin, emax, prec; lia | unfold emax; lia |].
  assert (s1 = 0) as -> by lia.
  assert (q1 = c) as -> by (change (2 ^ 0) with 1 in *; lia).
  assert (HcM : 0 <= c * M) by (apply Z.mul_nonneg_nonneg; lia).
  pose proof (digits_mul c M ltac:(lia) ltac:(lia)) as Hdp.
  pose proof (digits_nonneg (c * M)) as Hdp0.
  destruct (round_nonneg_near (c * M) (0 + 0 + -53))
    as (q2 & s2 & Hr2 & Hs2 & Hq2 & Hu2 & Hl2);
    [lia | unfold emin, emax, prec; lia | unfold emax; lia |].
  exists (q2 * 2 ^ s2). split; [|split; [exact Hu2 | exact Hl2]].
  unfold scaled, int_mul_float, float_of_int. rewrite Hr1. simpl. rewrite Hr2.
  simpl. f_equal.
  assert (HB : 0 < 2 ^ s2) by (apply Z.pow_pos_nonneg; lia).
  destruct (Z.leb_spec 0 (0 + 0 + -53 + s2)) as [He|He].
  - assert (s2 = 53) as -> by lia. simpl (0 + 0 + -53 + 53).
    rewrite Z.pow_0_r, Z.mul_1_r. symmetry. apply Z.div_mul. lia.
  - rewrite Z.quot_div_nonneg by (try apply Z.pow_pos_nonneg; lia).
    replace (2 ^ 53) with (2 ^ (- (0 + 0 + -53 + s2)) * 2 ^ s2)
      by (rewrite <- Z.pow_add_r by lia; f_equal; lia).
    symmetry. apply Z.div_mul_cancel_r; [|lia].
    apply Z.pow_nonzero; lia.
Qed.

(** The float product against the exact one, for the two multipliers
    that are not exact. *)
Lemma scaled_near_exact (c : Z) :
  0 <= c <= 2 ^ 48 ->
  exists z7 z95,
    scaled c f0_7 = Ok z7 /\ 7 * c / 10 - 1 <= z7 <= 7 * c / 10
    /\ scaled c f0_95 = Ok z95 /\ 19 * c / 20 - 1 <= z95 <= 19 * c / 20.
Proof.
  intros Hc.
  destruct (scaled_floor_form c 6305039478318694) as (P7 & H7 & Hu7 & Hl7);
    [lia | lia |].
  destruct (scaled_floor_form c 8556839292003942) as (P95 & H95 & Hu95 & Hl95);
    [lia | lia |].
  exists (P7 / 2 ^ 53), (P95 / 2 ^ 53).
  pose proof (Z.mul_div_le P7 (2 ^ 53) ltac:(lia)) as Hz7.
  pose proof (Z.mul_succ_div_gt P7 (2 ^ 53) ltac:(lia)) as Hz7'.
  pose proof (Z.mul_div_le P95 (2 ^ 53) ltac:(lia)) as Hz95.
  pose proof (Z.mul_succ_div_gt P95 (2 ^ 53) ltac:(lia)) as Hz95'.
  pose proof (Z.mul_div_le (7 * c) 10 ltac:(lia)) as HF7.
  pose proof (Z.mul_succ_div_gt (7 * c) 10 ltac:(lia)) as HF7'.
  pose proof (Z.mul_div_le (19 * c) 20 ltac:(lia)) as HF95.
  pose proof (Z.mul_succ_div_gt (19 * c) 20 ltac:(lia)) as HF95'.
  set (z7 := P7 / 2 ^ 53) in *. set (z95 := P95 / 2 ^ 53) in *.
  set (F7 := 7 * c / 10) in *. set (F95 := 19 * c / 20) in *.
  change (2 ^ 53) with 9007199254740992 in *.
  change (2 ^ 52) with 4503599627370496 in *.
  change (2 ^ 48) with 281474976710656 in *.
  assert (U7 : 10 * z7 * (9007199254740992 * 9007199254740992)
               < (7 * c + 1) * (9007199254740992 * 9007199254740992)) by lia.
  assert (L7 : (7 * c - 10) * (9007199254740992 * 4503599627370496)
               < 10 * (z7 + 1) * (9007199254740992 * 4503599627370496)) by lia.
  assert (U95 : 20 * z95 * (9007199254740992 * 9007199254740992)
                < (19 * c + 1) * (9007199254740992 * 9007199254740992)) by lia.
  assert (L95 : (19 * c - 20) * (9007199254740992 * 4503599627370496)
                < 20 * (z95 + 1) * (9007199254740992 * 4503599627370496)) by lia.
  assert (10 * z7 < 7 * c + 1) by lia.
  assert (7 * c - 10 < 10 * (z7 + 1)) by lia.
  assert (20 * z95 < 19 * c + 1) by lia.
  assert (19 * c - 20 < 20 * (z95 + 1)) by lia.
  split; [exact H7|]. split; [lia|]. split; [exact H95|]. lia.
Qed.

(** X9.  For a count up to [2^48] the float arithmetic of
    [int(value * multiplier[key])] costs at most one unit: the 0.7 entry
    gives the floor of seven tenths of the count or one less, the 0.95
    entry the floor of nineteen twentieths of it or one less, never more
    than the exact floor. *)
Theorem scaled_close_to_exact (c : Z) :
  0 <= c <= 2 ^ 48 ->
  exists z7 z95,
    scaled c f0_7 = Ok z7 /\ 7 * c / 10 - 1 <= z7 <= 7 * c / 10
    /\ scaled c f0_95 = Ok z95 /\ 19 * c / 20 - 1 <= z95 <= 19 * c / 20.
Proof. exact (scaled_near_exact c). Qed.

Lemma scaled_close_to_exact_witness :
  0 <= 90 <= 2 ^ 48
  /\ exists z7 z95,
       scaled 90 f0_7 = Ok z7 /\ 7 * 90 / 10 - 1 <= z7 <= 7 * 90 / 10
       /\ scaled 90 f0_95 = Ok z95 /\ 19 * 90 / 20 - 1 <= z95 <= 19 * 90 / 20.
Proof.
  split; [lia|]. apply (scaled_close_to_exact 90). lia.
Defined.

End Accuracy.


Section Halving.
Local Open Scope Z_scope.

(** A value that fits the precision after dropping zero bits only is not
    changed by rounding. *)
Lemma round_exact (m e s : Z) :
  0 < m -> s = excess m e -> m mod 2 ^ s = 0 ->
  digits (m / 2 ^ s) + (e + s) <= emax ->
  round m e = Finite (m / 2 ^ s) (e + s).
Proof.
  intros Hm Hs Hmod Hfit. unfold round. rewrite (Z.abs_eq m) by lia.
  rewrite <- Hs.
  assert (Hs0 : 0 <= s) by (subst s; unfold excess; lia).
  assert (Hq : (if s =? 0 then m else round_shift m s) = m / 2 ^ s).
  { destruct (Z.eqb_spec s 0) as [->|Hne].
    - by rewrite Z.pow_0_r, Z.div_1_r.
    - unfold round_shift. rewrite Hmod.
      assert (0 < 2 ^ (s - 1)) by (apply Z.pow_pos_nonneg; lia).
      destruct (Z.ltb_spec (2 ^ (s - 1)) 0); [lia|].
      destruct (Z.eqb_spec 0 (2 ^ (s - 1))); [lia|]. reflexivity. }
  rewrite Hq. destruct (Z.ltb_spec emax (digits (m / 2 ^ s) + (e + s))); [lia|].
  by rewrite Z.sgn_pos, Z.mul_1_l by lia.
Qed.

Lemma digits_shift (c n : Z) : 0 < c -> 0 <= n -> digits (c * 2 ^ n) = digits c + n.
Proof.
  intros Hc Hn. unfold digits.
  assert (0 < 2 ^ n) by (apply Z.pow_pos_nonneg; lia).
  destruct (Z.eqb_spec (c * 2 ^ n) 0); [nia|].
  destruct (Z.eqb_spec c 0); [lia|].
  rewrite Z.log2_mul_pow2 by lia. lia.
Qed.

(** Halving in float arithmetic. *)
Lemma scaled_half_exact (c : Z) :
  0 <= c < 2 ^ 53 -> scaled c f0_5 = Ok (c / 2).
Proof.
  intros Hc. destruct (Z.eq_dec c 0) as [->|Hne]; [reflexivity|].
  assert (Hpos : 0 < c) by lia.
  assert (Hdc : digits c <= 53) by (apply digits_le; lia).
  assert (Hdc1 : 1 <= digits c).
  { unfold digits. destruct (Z.eqb_spec c 0); [lia|].
    pose proof (Z.log2_nonneg c). lia. }
  (* float(c) is c *)
  assert (Hfc : round c 0 = Finite c (0 + 0)).
  { pose proof (round_exact c 0 0) as H.
    rewrite Z.pow_0_r, Z.div_1_r in H. apply H.
    - lia.
    - unfold excess, emin, emax, prec. lia.
    - apply Z.mod_1_r.
    - unfold emax. lia. }
  (* c * 0.5 is c * 2^52 * 2^-53, with digits c - 1 zero bits to drop *)
  set (s := digits c - 1).
  assert (Hs : 0 <= s <= 52) by (unfold s; lia).
  assert (HP : 0 < 2 ^ s) by (apply Z.pow_pos_nonneg; lia).
  assert (HR : 0 < 2 ^ (52 - s)) by (apply Z.pow_pos_nonneg; lia).
  assert (Hsplit : 4503599627370496 = 2 ^ (52 - s) * 2 ^ s).
  { rewrite <- Z.pow_add_r by lia. replace (52 - s + s) with 52 by lia. reflexivity. }
  assert (Hdiv : c * 4503599627370496 / 2 ^ s = c * 2 ^ (52 - s)).
  { rewrite Hsplit, Z.mul_assoc. apply Z.div_mul. lia. }
  assert (Hfm : round (c * 4503599627370496) (0 + 0 + -53)
                = Finite (c * 2 ^ (52 - s)) (0 + 0 + -53 + s)).
  { rewrite <- Hdiv. apply round_exact.
    - lia.
    - unfold excess. change 4503599627370496 with (2 ^ 52).
      rewrite digits_shift by lia. unfold emin, emax, prec, s. lia.
    - rewrite Hsplit, Z.mul_assoc. apply Z.mod_mul. lia.
    - rewrite Hdiv, digits_shift by lia. unfold emax, s. lia. }
  unfold scaled, int_mul_float, float_of_int, f0_5. rewrite Hfc. simpl.
  rewrite Hfm. simpl. f_equal.
  destruct (Z.leb_spec 0 (0 + 0 + -53 + s)); [lia|].
  rewrite Z.quot_div_nonneg by (try apply Z.pow_pos_nonneg; lia).
  replace (2 ^ (- (0 + 0 + -53 + s))) with (2 * 2 ^ (52 - s)).
  - apply Z.div_mul_cancel_r; lia.
  - rewrite <- Z.pow_succ_r by lia. f_equal. lia.
Qed.

(** X10.  The multiplier 0.5 of class 0 is exact: for a count below
    [2^53], [int(value * 0.5)] is the count halved, rounded down. *)
Theorem scaled_by_half (c : Z) :
  0 <= c < 2 ^ 53 -> scaled c f0_5 = Ok (c / 2).
Proof. exact (scaled_half_exact c). Qed.

Lemma scaled_by_half_witness :
  0 <= 50 < 2 ^ 53 /\ scaled 50 f0_5 = Ok (50 / 2).
Proof. split; [lia|]. apply (scaled_by_half 50). lia. Defined.

End Halving.

(* ===================================================================== *)
(** * The targets of the two [ratio_multiplier]s, in exact arithmetic *)
(* ===================================================================== *)

Section Targets.
Local Open Scope Z_scope.

Lemma float_target_body (multiplier : dict float) (k c : Z) (m : float) :
  (k = 1 /\ m = f0_7) \/ (k = 2 /\ m = f0_95) ->
  dict_getitem multiplier k = Ok m ->
  0 <= c <= 2 ^ 48 ->
  exists v,
    float_target k c v
    /\ forall pre post, k ∉ keys pre ->
         rbind (dict_getitem multiplier k) (fun m =>
           rbind (scaled c m) (fun v =>
             Ok (dict_set (pre ++ (k, c) :: post) k v)))
         = Ok (pre ++ (k, v) :: post).
Proof.
  intros Hk Hm Hc.
  destruct (scaled_near_exact c Hc) as (z7 & z95 & H7 & B7 & H95 & B95).
  destruct Hk as [[-> ->]|[-> ->]].
  - exists z7. split; [by split|]. intros pre post Hpre.
    rewrite Hm. cbn [rbind]. rewrite H7. cbn [rbind]. by rewrite dict_set_at.
  - exists z95. split; [by split|]. intros pre post Hpre.
    rewrite Hm. cbn [rbind]. rewrite H95. cbn [rbind]. by rewrite dict_set_at.
Qed.

Lemma Counter_value_small (y : list Z) k c :
  Z.of_nat (length y) <= 2 ^ 48 -> (k, c) ∈ Counter y -> 0 <= c <= 2 ^ 48.
Proof.
  intros Hlen [-> Hpos]%Counter_item.
  pose proof (count_occ_le_length y k). lia.
Qed.

Lemma second_items_near (y : list Z) :
  Z.of_nat (length y) <= 2 ^ 48 ->
  exists d,
    Line225.ratio_multiplier y = Ok d
    /\ Forall2 (fun a b => a.1 = b.1 /\ float_target a.1 a.2 b.2) (Counter y) d.
Proof.
  intros Hlen. unfold Line225.ratio_multiplier.
  apply (for_items_rel float_target); [apply NoDup_keys_Counter|].
  intros k c Hin. pose proof (Counter_value_small y k c Hlen Hin) as Hc.
  destruct (Z.eq_dec k 1) as [->|Hk1]; [|destruct (Z.eq_dec k 2) as [->|Hk2]].
  - change (dict_contains Line225.multiplier 1) with true. cbv iota.
    apply (float_target_body Line225.multiplier 1 c f0_7);
      [by left | reflexivity | done].
  - change (dict_contains Line225.multiplier 2) with true. cbv iota.
    apply (float_target_body Line225.multiplier 2 c f0_95);
      [by right | reflexivity | done].
  - exists c. split.
    + unfold float_target.
      destruct k as [|[[p|p|]|[p|p|]|]|p]; first [reflexivity | lia].
    + intros pre post Hpre. unfold dict_contains, Line225.multiplier.
      cbn [dict_get]. destruct (Z.eqb_spec 1 k); [lia|].
      destruct (Z.eqb_spec 2 k); [lia|]. reflexivity.
Qed.

Lemma first_items_near (y : list Z) :
  Z.of_nat (length y) <= 2 ^ 48 ->
  Forall iris_class y ->
  exists d,
    Line75.ratio_multiplier y = Ok d
    /\ Forall2 (fun a b => a.1 = b.1 /\ first_target a.1 a.2 b.2) (Counter y) d.
Proof.
  intros Hlen Hy. unfold Line75.ratio_multiplier.
  apply (for_items_rel first_target); [apply NoDup_keys_Counter|].
  intros k c Hin. pose proof (Counter_value_small y k c Hlen Hin) as Hc.
  assert (Hk : iris_class k).
  { apply (list_elem_of_fmap_2 fst) in Hin. simpl in Hin.
    apply (proj1 (keys_Counter y k)) in Hin.
    rewrite Forall_forall in Hy. by apply Hy. }
  destruct Hk as [-> | [-> | ->]].
  - exists (c / 2). split; [reflexivity|]. intros pre post Hpre.
    change (dict_getitem Line75.multiplier 0) with (Ok f0_5).
    cbn [rbind]. rewrite scaled_half_exact by lia. cbn [rbind].
    by rewrite dict_set_at.
  - apply (float_target_body Line75.multiplier 1 c f0_7);
      [by left | reflexivity | done].
  - apply (float_target_body Line75.multiplier 2 c f0_95);
      [by right | reflexivity | done].
Qed.

(** X7.  On a label vector of up to [2^48] entries holding only the
    classes 0, 1 and 2, the first [ratio_multiplier] returns [Counter(y)]
    with the count of class 0 halved (rounded down), the count of class 1
    replaced by [int(count * 0.7)], which is the floor of seven tenths of
    it or one less, and the count of class 2 by [int(count * 0.95)], the
    floor of nineteen twentieths of it or one less. *)
Theorem first_ratio_multiplier_scales (y : list Z) :
  Z.of_nat (length y) <= 2 ^ 48 ->
  Forall iris_class y ->
  exists d,
    Line75.ratio_multiplier y = Ok d
    /\ Forall2 (fun a b => b.1 = a.1 /\ first_target a.1 a.2 b.2) (Counter y) d.
Proof.
  intros Hlen Hy. destruct (first_items_near y Hlen Hy) as (d & Hd & Hall).
  exists d. split; [exact Hd|].
  eapply Forall2_impl; [exact Hall|]. intros a b [Hk Ht]. by split.
Qed.

Lemma first_ratio_multiplier_scales_witness :
  Z.of_nat (length (repeat 0 50 ++ repeat 1 50 ++ repeat 2 50)) <= 2 ^ 48
  /\ Forall iris_class (repeat 0 50 ++ repeat 1 50 ++ repeat 2 50)
  /\ exists d,
       Line75.ratio_multiplier (repeat 0 50 ++ repeat 1 50 ++ repeat 2 50) = Ok d
       /\ Forall2 (fun a b => b.1 = a.1 /\ first_target a.1 a.2 b.2)
            (Counter (repeat 0 50 ++ repeat 1 50 ++ repeat 2 50)) d.
Proof.
  assert (H : Forall iris_class (repeat 0 50 ++ repeat 1 50 ++ repeat 2 50)).
  { rewrite !Forall_app. repeat split; apply Forall_forall; intros x Hx;
      apply list_elem_of_In, repeat_spec in Hx; unfold iris_class; lia. }
  split; [vm_compute; discriminate|]. split; [exact H|].
  apply (first_ratio_multiplier_scales (repeat 0 50 ++ repeat 1 50 ++ repeat 2 50));
    [vm_compute; discriminate | exact H].
Defined.

(** C4, as stated, fails.  On ninety labels of class 1 the second
    [ratio_multiplier] returns 62 for class 1, as [int(90 * 0.7)] is 62 in
    binary64 arithmetic, while the floor of 0.7 times 90 is 63. *)
Lemma stated_target_fails_at_ninety :
  ~ exists d,
      Line225.ratio_multiplier (repeat 1 90) = Ok d
      /\ Forall2 (fun a b => b.1 = a.1 /\ stated_target a.1 a.2 b.2)
           (Counter (repeat 1 90)) d.
Proof.
  intros (d & Hd & Hall).
  assert (Hrun : Line225.ratio_multiplier (repeat 1 90) = Ok [(1, 62)])
    by (vm_compute; reflexivity).
  rewrite Hrun in Hd. injection Hd as <-.
  assert (Hc : Counter (repeat 1 90) = [(1, 90)]) by (vm_compute; reflexivity).
  rewrite Hc in Hall. apply Forall2_cons_1 in Hall as [[_ Hst] _].
  vm_compute in Hst. discriminate Hst.
Qed.

End Targets.

(** A pie of a label vector that is not empty has a wedge. *)
Lemma pie_of_nonempty (y : list Z) : y <> [] -> pie_sizes (pie_of y) <> [].
Proof.
  intros Hy Hs. destruct y as [|x y]; [done|].
  assert (Hin : x ∈ keys (Counter (x :: y))) by (apply keys_Counter; left).
  unfold pie_of in Hs. cbn [pie_sizes] in Hs. unfold keys, values in *.
  destruct (Counter (x :: y)); [|done]. by apply elem_of_nil in Hin.
Qed.

(** After a library call, record that the labels it returned are not
    empty. *)
Ltac learn_nonempty Hmi Hfs :=
  try match goal with
      | E : _ = (Ok (_, ?y'), _) |- _ =>
          lazymatch goal with
          | _ : y' <> [] |- _ => fail
          | _ => assert (y' <> []) by first [eapply Hmi; exact E | eapply Hfs; exact E]
          end
      end.

Ltac all_of_list :=
  repeat match goal with
         | |- Forall _ (_ :: _) => constructor
         | |- Forall _ [] => constructor
         end.

(* ===================================================================== *)
(** * More on the runs of the script *)
(* ===================================================================== *)

Section MoreRuns.
Context {Row World : Type}.
Variable iris_data : list Row.
Variable iris_target : list Z.
Variable make_imbalance :
  World -> list Row -> list Z -> sampling_target -> result (list Row * list Z) * World.
Variable fit_sample :
  World -> sampler -> sampling_target -> list Row -> list Z ->
  result (list Row * list Z) * World.

Abbreviation this_script := (script iris_data iris_target make_imbalance fit_sample).

(** C4, as amended.  The name [ratio_multiplier] is bound twice, and the
    second binding is the one in effect at the under-sampling call:
    whenever the under-sampler is given a callable, it is the function of
    lines 225-231, which is then also what the global name holds at the
    end of a run.  For every label vector [y] of up to [2^48] entries that
    function returns [Counter(y)] with the count of class 1 replaced by
    [int(count * 0.7)] and the count of class 2 by [int(count * 0.95)],
    computed in binary64: each is the floor of the exact product (seven
    tenths, nineteen twentieths of the count) or one less, never more;
    every other count, that of class 0 among them, is left as it is. *)
Theorem second_ratio_multiplier_targets (w : World) (y : list Z) :
  (Z.of_nat (length y) <= 2 ^ 48)%Z ->
  after this_script (initial w)
    (fun r st =>
       under_sampler_gets_second (trace st)
       /\ (r = Ok tt ->
           (FitSample RandomUnderSampler, Function) ∈ calls_of (trace st)
           /\ globals st !! "ratio_multiplier"
              = Some (VFunction Line225.ratio_multiplier)))
  /\ exists d,
       Line225.ratio_multiplier y = Ok d
       /\ Forall2 (fun a b => b.1 = a.1 /\ float_target a.1 a.2 b.2)
            (Counter y) d.
Proof.
  intros Hlen. split.
  - run_script; (split;
      [ unfold under_sampler_gets_second; scan_log; reflexivity
      | intros Hr; first
          [ discriminate Hr
          | split; [apply list_elem_of_In; cbn; auto 15 | lookup_global] ] ]).
  - destruct (second_items_near y Hlen) as (d & Hd & Hall).
    exists d. split; [exact Hd|].
    eapply Forall2_impl; [exact Hall|]. intros a b [Hk Ht]. by split.
Qed.

(** X11.  How a run can end when no label vector is empty (the iris
    labels are not, and the library returns none that is).  Then no pie
    that is drawn is without wedges, so that [ax.pie] is never given an
    empty list of sizes, and the run ends in one of three ways: normally,
    after all eleven calls; or in the error of a library call, which is
    then the last event; or in the [IndexError] of [X[binary_mask]], and
    that only when the callable-based [make_imbalance] returned misaligned
    rows and labels, before any sampler is called.  The script itself
    raises nothing else: no name is read before it is bound. *)
Theorem ways_a_run_ends (w : World) :
  iris_target <> [] ->
  never_empty make_imbalance fit_sample ->
  after this_script (initial w)
    (fun r st =>
       Forall (fun hp => pie_sizes hp.2 <> []) (drawn (trace st))
       /\ match r with
          | Ok _ => calls_of (trace st) = demonstrations
          | Raise e =>
              (exists c t X y, last (trace st) = Some (Call c t X y (Raise e)))
              \/ (e = IndexError
                  /\ calls_of (trace st) = take 2 demonstrations
                  /\ Exists misaligned_output (trace st))
          end).
Proof.
  intros Hiris [Hmi Hfs].
  run_script_with ltac:(learn_nonempty Hmi Hfs);
  (split;
   [ cbn [drawn flat_map app]; all_of_list; cbn [snd];
     apply pie_of_nonempty; assumption
   | cbv beta iota;
     first
       [ reflexivity
       | left; by eexists _, _, _, _
       | right; split; [reflexivity|]; split; [reflexivity|];
         repeat first
           [ by (apply Exists_cons_hd; cbn; assumption)
           | apply Exists_cons_tl ] ] ]).
Qed.

(** X12.  Where the data of every library call come from: both
    [make_imbalance] calls are given the iris data; every sampler is given
    the data set returned by the latest [make_imbalance], the
    callable-based one (the dict-based one of line 61 is overwritten
    unused), as it is or, for the float ratio, cut down to classes 0 and
    2 by the mask. *)
Theorem samplers_get_the_imbalanced_set (w : World) :
  after this_script (initial w) (fun r st =>
    data_flow iris_data iris_target (trace st)).
Proof.
  run_script; unfold data_flow; apply scan_everywhere;
    cbn [scan app imbalanced fold_left]; conjuncts; reflexivity.
Qed.

(** X13.  What the script prints as [sampling_target]: after a call
    given a dict, a float, a string or a list, that very target; after
    [make_imbalance] given the callable, the dict of line 60; after the
    under-sampler given the callable, the list of line 208 (printed as
    [ratio]).  The callable itself is never printed. *)
Theorem printed_sampling_targets (w : World) :
  after this_script (initial w) (fun r st => printed_targets (trace st)).
Proof.
  run_script; unfold printed_targets; scan_log; reflexivity.
Qed.

(** X14.  The figures of a run in which no label vector is empty,
    wherever it ends: one per summarised label vector, the iris labels
    first and then the labels returned by each library call in order; the
    figure with handle [i] holds the pie of the [i]-th of them, which has
    at least one wedge, with equal axes, and is not touched again. *)
Theorem figures_of_a_run (w : World) :
  iris_target <> [] ->
  never_empty make_imbalance fit_sample ->
  after this_script (initial w)
    (fun r st =>
       figures st
       = map (fun y => Figure (Some (pie_of y)) (Some "equal"))
           (iris_target :: outputs (trace st))
       /\ drawn (trace st)
          = imap (fun i y => (i, pie_of y)) (iris_target :: outputs (trace st))
       /\ Forall (fun y => pie_sizes (pie_of y) <> [])
            (iris_target :: outputs (trace st))).
Proof.
  intros Hiris [Hmi Hfs].
  run_script_with ltac:(learn_nonempty Hmi Hfs);
  (split; [reflexivity|]; split; [reflexivity|];
   cbn [outputs flat_map app]; all_of_list;
   apply pie_of_nonempty; assumption).
Qed.

(** X15.  The printed summaries of a run are those of the same label
    vectors, in the same order: the iris labels, then the labels returned
    by each library call. *)
Theorem summaries_of_a_run (w : World) :
  after this_script (initial w) (fun r st =>
    printed (trace st) = map Counter (iris_target :: outputs (trace st))).
Proof.
  run_script; reflexivity.
Qed.

End MoreRuns.

(* ===================================================================== *)
(** * Witnesses on the iris labels *)
(* ===================================================================== *)

Lemma careful_never_empty :
  never_empty Demo.careful_make_imbalance Demo.careful_fit_sample.
Proof.
  split.
  - intros w X y t X' y' w'. unfold Demo.careful_make_imbalance, Demo.refuse_empty.
    destruct (Demo.resample t X y) as [[X0 [|c y0]]|e]; intros [= <- <-]; done.
  - intros w s t X y X' y' w'. unfold Demo.careful_fit_sample, Demo.refuse_empty.
    destruct (Demo.resample t X y) as [[X0 [|c y0]]|e]; intros [= <- <-]; done.
Qed.

Lemma second_ratio_multiplier_targets_witness :
  (Z.of_nat (length (repeat 1%Z 90)) <= 2 ^ 48)%Z
  /\ (after (script Demo.iris_data Demo.iris_target
               Demo.make_imbalance Demo.fit_sample) (initial tt)
        (fun r st =>
           under_sampler_gets_second (trace st)
           /\ (r = Ok tt ->
               (FitSample RandomUnderSampler, Function) ∈ calls_of (trace st)
               /\ globals st !! "ratio_multiplier"
                  = Some (VFunction Line225.ratio_multiplier)))
      /\ exists d,
           Line225.ratio_multiplier (repeat 1%Z 90) = Ok d
           /\ Forall2 (fun a b => b.1 = a.1 /\ float_target a.1 a.2 b.2)
                (Counter (repeat 1%Z 90)) d).
Proof.
  split; [vm_compute; discriminate|].
  apply (second_ratio_multiplier_targets Demo.iris_data Demo.iris_target
           Demo.make_imbalance Demo.fit_sample tt (repeat 1%Z 90)).
  vm_compute; discriminate.
Defined.

Lemma ways_a_run_ends_witness :
  Demo.iris_target <> []
  /\ never_empty Demo.careful_make_imbalance Demo.careful_fit_sample
  /\ after (script Demo.iris_data Demo.iris_target
              Demo.careful_make_imbalance Demo.careful_fit_sample) (initial tt)
       (fun r st =>
          Forall (fun hp => pie_sizes hp.2 <> []) (drawn (trace st))
          /\ match r with
             | Ok _ => calls_of (trace st) = demonstrations
             | Raise e =>
                 (exists c t X y, last (trace st) = Some (Call c t X y (Raise e)))
                 \/ (e = IndexError
                     /\ calls_of (trace st) = take 2 demonstrations
                     /\ Exists misaligned_output (trace st))
             end).
Proof.
  split; [discriminate|]. split; [exact careful_never_empty|].
  apply (ways_a_run_ends Demo.iris_data Demo.iris_target
           Demo.careful_make_imbalance Demo.careful_fit_sample tt).
  - discriminate.
  - exact careful_never_empty.
Defined.

Lemma figures_of_a_run_witness :
  Demo.iris_target <> []
  /\ never_empty Demo.careful_make_imbalance Demo.careful_fit_sample
  /\ after (script Demo.iris_data Demo.iris_target
              Demo.careful_make_imbalance Demo.careful_fit_sample) (initial tt)
       (fun r st =>
          figures st
          = map (fun y => Figure (Some (pie_of y)) (Some "equal"))
              (Demo.iris_target :: outputs (trace st))
          /\ drawn (trace st)
             = imap (fun i y => (i, pie_of y))
                 (Demo.iris_target :: outputs (trace st))
          /\ Forall (fun y => pie_sizes (pie_of y) <> [])
               (Demo.iris_target :: outputs (trace st))).
Proof.
  split; [discriminate|]. split; [exact careful_never_empty|].
  apply (figures_of_a_run Demo.iris_data Demo.iris_target
           Demo.careful_make_imbalance Demo.careful_fit_sample tt).
  - discriminate.
  - exact careful_never_empty.
Defined.
